(** * check_HEX_file_errors: the record handler and the file analyzer

    A shallow embedding of [record_handler.c] (checkRecord,
    displayRecordInfo) and [intel_hex_file_analyzer.c]
    (analyzeIntelHexFile, checkEOF, printIntelHexFile), with the parts of
    the C library they call ([sscanf] with [%Ns] and [%NX], [strncmp],
    [strcmp], [fgets]).

    Conventions.
    - A line is the C string [fgets] hands out: a [string], its length is
      [strlen].  A file is the list of the lines [fgets] returns in turn.
    - Fixed-width C integers are [Z] with the conversions written out
      ([to_u32], [to_i32], [to_i8], [to_u64]); [size_t] is 64 bits wide and
      [unsigned int] stores are little-endian, as on the LP64 targets the
      program is built for.
    - An object the C code leaves uninitialised (the local [record], the
      block [malloc] returns, [last_line], [EOF_line], the caller's
      [Error_t]) is an explicit argument holding whatever the object
      contains when the function starts.
    - Pointer arithmetic that leaves the line ([line + k] with [k] outside
      [0 .. strlen line]) has no defined result: the functions return
      [None] there.
    - The bytes behind [record.data] are followed at every offset, so that
      what one call computes from them is defined whatever the size of the
      block.  Whether the stores of a call stay inside the block [malloc]
      returned is a predicate of its own ([stores_in_block]); a store
      outside it leaves the rest of the run undefined, and the statements
      that conclude what [main] reports once [checkRecord] has run on the
      records of a file are made for runs without such a store. *)

From Stdlib Require Import ZArith List String Ascii Bool Lia.
Import ListNotations.

Local Open Scope Z_scope.

(** ** C integer conversions *)

Definition to_u32 (z : Z) : Z := z mod 2 ^ 32.
Definition to_u64 (z : Z) : Z := z mod 2 ^ 64.
Definition to_u8 (z : Z) : Z := z mod 2 ^ 8.

Definition to_i32 (z : Z) : Z :=
  let r := z mod 2 ^ 32 in if r <? 2 ^ 31 then r else r - 2 ^ 32.

Definition to_i8 (z : Z) : Z :=
  let r := z mod 2 ^ 8 in if r <? 2 ^ 7 then r else r - 2 ^ 8.

(** ** <ctype.h> and <string.h> *)

Definition code (c : ascii) : Z := Z.of_N (N_of_ascii c).

(** [isspace] in the C locale: space, and \t \n \v \f \r. *)
Definition isspace (c : ascii) : bool :=
  (code c =? 32) || ((9 <=? code c) && (code c <=? 13)).

(** The value of a hexadecimal digit, [None] for any other character. *)
Definition hex_digit (c : ascii) : option Z :=
  let n := code c in
  if (48 <=? n) && (n <=? 57) then Some (n - 48)
  else if (65 <=? n) && (n <=? 70) then Some (n - 55)
  else if (97 <=? n) && (n <=? 102) then Some (n - 87)
  else None.

Definition strlen (s : string) : Z := Z.of_nat (String.length s).

(** [strcmp a b == 0]. *)
Definition strcmp_eq (a b : string) : bool := String.eqb a b.

(** [strncmp a b n == 0]: the first [n] characters agree, or both strings
    end together before that. *)
Fixpoint strncmp_eq (a b : string) (n : nat) {struct n} : bool :=
  match n with
  | O => true
  | S n' =>
      match a, b with
      | EmptyString, EmptyString => true
      | String x a', String y b' => Ascii.eqb x y && strncmp_eq a' b' n'
      | _, _ => false
      end
  end.

(** [line + k]: the rest of the line from offset [k]; the offset of the
    terminator itself is still inside the object. *)
Fixpoint drop (n : nat) (s : string) : option string :=
  match n with
  | O => Some s
  | S n' => match s with
            | EmptyString => None
            | String _ r => drop n' r
            end
  end.

Definition at_offset (line : string) (k : Z) : option string :=
  if k <? 0 then None else drop (Z.to_nat k) line.

(** ** sscanf conversions *)

Fixpoint skip_ws (s : string) : string :=
  match s with
  | String c r => if isspace c then skip_ws r else s
  | EmptyString => EmptyString
  end.

Fixpoint take_nonws (w : nat) (s : string) {struct w} : string * string :=
  match w, s with
  | S w', String c r =>
      if isspace c then (EmptyString, s)
      else let (t, r') := take_nonws w' r in (String c t, r')
  | _, _ => (EmptyString, s)
  end.

(** [%ws]: skip white space, then take up to [w] characters that are not
    white space; the conversion fails when there is none. *)
Definition scan_s (w : nat) (s : string) : option (string * string) :=
  let (t, r) := take_nonws w (skip_ws s) in
  match t with
  | EmptyString => None
  | _ => Some (t, r)
  end.

Fixpoint take_hex (w : nat) (s : string) {struct w} : list Z * string :=
  match w, s with
  | S w', String c r =>
      match hex_digit c with
      | Some d => let (ds, r') := take_hex w' r in (d :: ds, r')
      | None => ([], s)
      end
  | _, _ => ([], s)
  end.

Definition hex_value (ds : list Z) : Z :=
  fold_left (fun a d => a * 16 + d) ds 0.

Definition is_char (c : ascii) (n : Z) : bool := code c =? n.

(** [%X] (no width: [None]) and [%0wX] (width [Some w]): skip white space,
    which does not count against the width, then an optional sign, an
    optional [0x]/[0X] prefix and hexadecimal digits, as for [strtoul] in
    base 16.  The conversion fails when there is no digit; the [0] of a
    prefix counts as one, so that a prefix without digits after it gives 0
    (what glibc does; ISO C 7.21.6.2 would have the conversion fail).  The
    result is what is stored in the [unsigned int] the argument points to:
    a negated value wraps. *)
Definition scan_X (w : option nat) (s : string) : option (Z * string) :=
  let s0 := skip_ws s in
  let w0 := match w with Some n => n | None => String.length s0 end in
  let '(neg, s1, w1) :=
    match w0, s0 with
    | S w', String c r =>
        if is_char c 45 then (true, r, w')
        else if is_char c 43 then (false, r, w')
        else (false, s0, w0)
    | _, _ => (false, s0, w0)
    end in
  let '(prefix, s2, w2) :=
    match w1, s1 with
    | S (S w'), String c (String x r) =>
        if is_char c 48 && (is_char x 120 || is_char x 88)
        then (true, r, w') else (false, s1, w1)
    | _, _ => (false, s1, w1)
    end in
  let (ds, rest) := take_hex w2 s2 in
  match ds, prefix with
  | [], false => None
  | _, _ => Some (to_u32 (if neg then - hex_value ds else hex_value ds), rest)
  end.

(** ** record_handler.h *)

Record IntelHexRecord_t := mkRecord {
  byte_count : Z;          (* uint32_t *)
  address : Z;             (* uint32_t *)
  record_type : Z;         (* uint32_t *)
  data : nat -> Z;         (* uint8_t *: the byte at each offset *)
  checksum : Z             (* uint32_t *)
}.

Definition set_byte_count (r : IntelHexRecord_t) (v : Z) :=
  mkRecord v (address r) (record_type r) (data r) (checksum r).
Definition set_address (r : IntelHexRecord_t) (v : Z) :=
  mkRecord (byte_count r) v (record_type r) (data r) (checksum r).
Definition set_record_type (r : IntelHexRecord_t) (v : Z) :=
  mkRecord (byte_count r) (address r) v (data r) (checksum r).
Definition set_data (r : IntelHexRecord_t) (m : nat -> Z) :=
  mkRecord (byte_count r) (address r) (record_type r) m (checksum r).
Definition set_checksum (r : IntelHexRecord_t) (v : Z) :=
  mkRecord (byte_count r) (address r) (record_type r) (data r) v.

(** What an uninitialised [record] holds, read at its C types. *)
Definition uninitialised (u : IntelHexRecord_t) : IntelHexRecord_t :=
  mkRecord (to_u32 (byte_count u)) (to_u32 (address u))
           (to_u32 (record_type u)) (fun i => to_u8 (data u i))
           (to_u32 (checksum u)).

(** [sscanf(p, "%02X", &(record.data[i]))] stores an [unsigned int]
    through a [uint8_t *]: four bytes, least significant first. *)
Definition store32 (m : nat -> Z) (i : nat) (v : Z) : nat -> Z :=
  fun j =>
    if (i <=? j)%nat && (j <? i + 4)%nat
    then to_u8 (v / 2 ^ (8 * Z.of_nat (j - i)))
    else m j.

(** The loop [for (i = 0; i < record.byte_count; i++)
    sscanf(line + 9 + (i * 2), "%02X", &(record.data[i]));] run for [n]
    rounds from [i]; a conversion that fails stores nothing.  The bytes
    are followed at every offset: whether a store stays inside the block
    behind [record.data] is told by [stores_in_block] below. *)
Fixpoint parse_data (line : string) (m : nat -> Z) (i n : nat)
  : option (nat -> Z) :=
  match n with
  | O => Some m
  | S n' =>
      match at_offset line (9 + Z.of_nat i * 2) with
      | None => None
      | Some p =>
          let m' := match scan_X (Some 2%nat) p with
                    | Some (v, _) => store32 m i v
                    | None => m
                    end in
          parse_data line m' (S i) n'
      end
  end.

(** [record.data[0] + ... + record.data[n-1]], added in this order. *)
Fixpoint sum_data (m : nat -> Z) (i n : nat) : Z :=
  match n with
  | O => 0
  | S n' => m i + sum_data m (S i) n'
  end.

(** ** record_handler.c: checkRecord *)

Definition starts_with_colon (line : string) : bool :=
  match line with
  | String c _ => is_char c 58
  | EmptyString => false
  end.

(** [sscanf(line, ":%2s%4s%2s", byte_count_str, address_str,
    record_type_str)]: the three strings when the call returns 3. *)
Definition scan_header (line : string) : option (string * string * string) :=
  match line with
  | String c rest =>
      if is_char c 58 then
        match scan_s 2 rest with
        | None => None
        | Some (byte_count_str, r1) =>
            match scan_s 4 r1 with
            | None => None
            | Some (address_str, r2) =>
                match scan_s 2 r2 with
                | None => None
                | Some (record_type_str, _) =>
                    Some (byte_count_str, address_str, record_type_str)
                end
            end
        end
      else None
  | EmptyString => None
  end.

Definition valid_record_type (record_type_str : string) : bool :=
  strcmp_eq record_type_str "00" || strcmp_eq record_type_str "01"
  || strcmp_eq record_type_str "02" || strcmp_eq record_type_str "04"
  || strcmp_eq record_type_str "05".

(** [sscanf(str, "%X", &field)]: the field is written only when the
    conversion succeeds. *)
Definition scan_field (w : option nat) (str : string)
    (set : IntelHexRecord_t -> Z -> IntelHexRecord_t)
    (record : IntelHexRecord_t) : IntelHexRecord_t :=
  match scan_X w str with
  | Some (v, _) => set record v
  | None => record
  end.

(** The three conversions of the header strings into [record]. *)
Definition parse_fields (u : IntelHexRecord_t)
    (byte_count_str address_str record_type_str : string) : IntelHexRecord_t :=
  let record := uninitialised u in
  let record := scan_field None byte_count_str set_byte_count record in
  let record := scan_field None address_str set_address record in
  scan_field None record_type_str set_record_type record.

(** [data_byte = (strlen(line) - 11) / 2]: computed in [size_t], stored in
    an [int32_t]. *)
Definition data_byte (line : string) : Z :=
  to_i32 (to_u64 (strlen line - 11) / 2).

(** [int32_t checksum_record = 0; sscanf(line + strlen(line) - 3, "%02X",
    &checksum_record)]. *)
Definition checksum_record (line : string) : option Z :=
  match at_offset line (strlen line - 3) with
  | None => None
  | Some p =>
      match scan_X (Some 2%nat) p with
      | Some (v, _) => Some (to_i32 v)
      | None => Some 0
      end
  end.

(** [calculated_checksum += record.data[i]] for [n] rounds from [i]. *)
Fixpoint add_data (m : nat -> Z) (c : Z) (i n : nat) : Z :=
  match n with
  | O => c
  | S n' => add_data m (to_i32 (c + m i)) (S i) n'
  end.

Definition calculated_checksum (record : IntelHexRecord_t) : Z :=
  let c := to_i32 (to_u32 (byte_count record + Z.shiftr (address record) 8
                           + Z.land (address record) 255
                           + record_type record)) in
  let c := add_data (data record) c 0 (Z.to_nat (byte_count record)) in
  Z.land (to_i32 (Z.lnot c + 1)) 255.

(** [checkRecord(line)]; [u] is what the local [record] and the block
    [malloc] returns hold.  The result is the error code. *)
Definition checkRecord (u : IntelHexRecord_t) (line : string) : option Z :=
  if negb (starts_with_colon line) then Some 1
  else
    match scan_header line with
    | None => Some 2
    | Some (byte_count_str, address_str, record_type_str) =>
        if negb (valid_record_type record_type_str) then Some 3
        else
          let record :=
            parse_fields u byte_count_str address_str record_type_str in
          if negb (to_u32 (data_byte line) =? byte_count record) then Some 4
          else
            match parse_data line (data record) 0
                    (Z.to_nat (byte_count record)) with
            | None => None
            | Some m =>
                let record := set_data record m in
                match checksum_record line with
                | None => None
                | Some cs =>
                    if negb (calculated_checksum record =? cs)
                    then Some 5 else Some 0
                end
            end
    end.

(** [checkRecord] at the point where it computes the checksum: [record]
    and [checksum_record] as they are then, when the four earlier checks
    passed and the two parses stayed inside the line. *)
Definition checksum_step (u : IntelHexRecord_t) (line : string)
  : option (IntelHexRecord_t * Z) :=
  if starts_with_colon line then
    match scan_header line with
    | None => None
    | Some (byte_count_str, address_str, record_type_str) =>
        if valid_record_type record_type_str then
          let record :=
            parse_fields u byte_count_str address_str record_type_str in
          if to_u32 (data_byte line) =? byte_count record then
            match parse_data line (data record) 0
                    (Z.to_nat (byte_count record)) with
            | None => None
            | Some m =>
                match checksum_record line with
                | None => None
                | Some cs => Some (set_data record m, cs)
                end
            end
          else None
        else None
    end
  else None.

(** The checks of [checkRecord] one by one, each on its own. *)
Definition header_scanned (line : string) : bool :=
  match scan_header line with Some _ => true | None => false end.

Definition type_accepted (line : string) : bool :=
  match scan_header line with
  | Some (_, _, record_type_str) => valid_record_type record_type_str
  | None => false
  end.

(** [record.byte_count] as [checkRecord] holds it at the comparison with
    [data_byte]. *)
Definition declared_byte_count (u : IntelHexRecord_t) (line : string) : Z :=
  match scan_header line with
  | Some (byte_count_str, address_str, record_type_str) =>
      byte_count (parse_fields u byte_count_str address_str record_type_str)
  | None => to_u32 (byte_count u)
  end.

Definition count_matches (u : IntelHexRecord_t) (line : string) : bool :=
  to_u32 (data_byte line) =? declared_byte_count u line.

(** The formula of the format: the two's complement, in one byte, of the
    sum of the byte count, the two address bytes, the type and the data. *)
Definition high_byte (a : Z) : Z := (a / 256) mod 256.
Definition low_byte (a : Z) : Z := a mod 256.

Definition checksum_formula (record : IntelHexRecord_t) : Z :=
  (- (byte_count record + high_byte (address record)
      + low_byte (address record) + record_type record
      + sum_data (data record) 0 (Z.to_nat (byte_count record)))) mod 256.

(** ** record_handler.c: displayRecordInfo *)

(** [sscanf(line, ":%02X%04X%02X", &bc, &addr, &type)]: the fields are
    written one after the other until a directive fails. *)
Definition scan_header_X (line : string) (record : IntelHexRecord_t)
  : IntelHexRecord_t :=
  match line with
  | String c rest =>
      if is_char c 58 then
        match scan_X (Some 2%nat) rest with
        | None => record
        | Some (v1, r1) =>
            let record := set_byte_count record v1 in
            match scan_X (Some 4%nat) r1 with
            | None => record
            | Some (v2, r2) =>
                let record := set_address record v2 in
                match scan_X (Some 2%nat) r2 with
                | None => record
                | Some (v3, _) => set_record_type record v3
                end
            end
        end
      else record
  | EmptyString => record
  end.

(** What one call prints: the kind of record, its fields ([printRecord])
    and, for the two address records, the numbers shown by [%04X] and
    [%08X], which print an [int32_t] as the unsigned value of its bits. *)
Inductive display :=
| DataRecord (record : IntelHexRecord_t)
| ExtendedSegmentAddress (record : IntelHexRecord_t) (shown_base shown_abs : Z)
| ExtendedLinearAddress (record : IntelHexRecord_t) (shown_base shown_abs : Z)
| EndOfFile.

(** The record as [displayRecordInfo] has parsed it: header, checksum,
    then the data bytes.  [record.data] is allocated first, with the size
    the still uninitialised [record.byte_count] gives; [data u] is what
    that block holds. *)
Definition parse_for_display (u : IntelHexRecord_t) (line : string)
  : option IntelHexRecord_t :=
  let record := scan_header_X line (uninitialised u) in
  match at_offset line (strlen line - 3) with
  | None => None
  | Some p =>
      let record := scan_field (Some 2%nat) p set_checksum record in
      match parse_data line (data record) 0
              (Z.to_nat (byte_count record)) with
      | None => None
      | Some m => Some (set_data record m)
      end
  end.

(** [displayRecordInfo(line, record_number)]; the function-local
    [static int32_t base_address] is passed in and handed back. *)
Definition displayRecordInfo (u : IntelHexRecord_t) (line : string)
    (base_address : Z) : option (display * Z) :=
  match parse_for_display u line with
  | None => None
  | Some record =>
      if record_type record =? 0 then
        Some (DataRecord record, to_i32 (address record))
      else if record_type record =? 2 then
        let abs_address :=
          to_i32 (base_address + data record 0%nat * 4096
                  + data record 1%nat * 16) in
        Some (ExtendedSegmentAddress record (to_u32 base_address)
                (to_u32 abs_address), base_address)
      else if record_type record =? 4 then
        let abs_address :=
          to_i32 (base_address + data record 0%nat * 16777216
                  + data record 1%nat * 65536) in
        Some (ExtendedLinearAddress record (to_u32 base_address)
                (to_u32 abs_address), base_address)
      else Some (EndOfFile, base_address)
  end.

(** The absolute address a call shows, when it shows one. *)
Definition shown_address (d : display) : option Z :=
  match d with
  | ExtendedSegmentAddress _ _ a => Some a
  | ExtendedLinearAddress _ _ a => Some a
  | _ => None
  end.

(** ** intel_hex_file_analyzer.h *)

Record Error_t := mkError {
  error_code : Z;          (* uint32_t *)
  error_line : Z           (* uint32_t *)
}.

(** ** intel_hex_file_analyzer.c: analyzeIntelHexFile *)

(** The loop [while ((fgets(line, sizeof(line), fptr) != NULL) &&
    (continue_process))].  [fgets] is called before the flag is looked at:
    a round that finds the flag cleared has already taken a line from the
    stream.  [g n] is what the uninitialised locals of [checkRecord] hold
    in the call made for line [n].  The result is the error structure and
    what is left of the stream. *)
Fixpoint analyze_loop (g : Z -> IntelHexRecord_t) (fptr : list string)
    (continue_process : bool) (line_of_file : Z) (error : Error_t)
  : option (Error_t * list string) :=
  match fptr with
  | [] => Some (error, [])
  | line :: rest =>
      if negb continue_process then Some (error, rest)
      else
        match checkRecord (g line_of_file) line with
        | None => None
        | Some c =>
            let error := mkError (to_u32 c) (error_line error) in
            if negb (error_code error =? 0) then
              analyze_loop g rest false line_of_file
                (mkError (error_code error) (to_u32 line_of_file))
            else
              analyze_loop g rest true (line_of_file + 1) error
        end
  end.

(** [analyzeIntelHexFile(fptr, error)]: the value returned, [*error] and
    the stream afterwards. *)
Definition analyzeIntelHexFile (g : Z -> IntelHexRecord_t)
    (fptr : list string) (error : Error_t)
  : option (Z * Error_t * list string) :=
  match analyze_loop g fptr true 1 error with
  | None => None
  | Some (error', rest) => Some (to_i32 (error_code error'), error', rest)
  end.

(** ** intel_hex_file_analyzer.c: checkEOF *)

Definition EOF_record : string := ":00000001FF".

(** The test [strncmp(line, ":00000001FF", 11) == 0]. *)
Definition is_EOF_record (line : string) : bool :=
  strncmp_eq line EOF_record 11.

(** The locals of [checkEOF] and [*error] across the loop. *)
Record eof_scan := mkScan {
  last_line : string;      (* int8_t last_line[100] *)
  EOF_line : string;       (* int8_t EOF_line[100] *)
  found_EOF : Z;           (* int8_t *)
  line_of_file : Z;        (* int32_t *)
  err : Error_t            (* *error *)
}.

(** One round of the loop. *)
Definition eof_step (st : eof_scan) (line : string) : eof_scan :=
  if is_EOF_record line then
    mkScan line line (to_i8 (found_EOF st + 1)) (line_of_file st + 1)
      (if found_EOF st =? 0
       then mkError (error_code (err st)) (to_u32 (line_of_file st))
       else err st)
  else
    mkScan line (EOF_line st) (found_EOF st) (line_of_file st + 1) (err st).

(** The verdict after the loop. *)
Definition eof_verdict (st : eof_scan) : Z :=
  if found_EOF st =? 0 then 1
  else if found_EOF st =? 1 then
    if negb (strcmp_eq (last_line st) (EOF_line st)) then 2 else 0
  else 3.

(** [checkEOF(fptr, error)]: the value returned and [*error].
    [last_line0] and [EOF_line0] are what the two buffers hold before the
    loop. *)
Definition checkEOF (last_line0 EOF_line0 : string) (fptr : list string)
    (error : Error_t) : Z * Error_t :=
  let st := fold_left eof_step fptr
              (mkScan last_line0 EOF_line0 0 1 error) in
  let c := eof_verdict st in
  (to_i32 (to_u32 c), mkError (to_u32 c) (error_line (err st))).

(** ** intel_hex_file_analyzer.c: printIntelHexFile *)

Fixpoint print_loop (g : Z -> IntelHexRecord_t) (fptr : list string)
    (line_of_file : Z) (base_address : Z)
  : option (list display * Z) :=
  match fptr with
  | [] => Some ([], base_address)
  | line :: rest =>
      match displayRecordInfo (g line_of_file) line base_address with
      | None => None
      | Some (d, base_address') =>
          match print_loop g rest (line_of_file + 1) base_address' with
          | None => None
          | Some (ds, b) => Some (d :: ds, b)
          end
      end
  end.

(** [printIntelHexFile(fptr)]: what is shown for each line, and the static
    [base_address] of [displayRecordInfo] before and after. *)
Definition printIntelHexFile (g : Z -> IntelHexRecord_t)
    (fptr : list string) (base_address : Z) : option (list display * Z) :=
  print_loop g fptr 1 base_address.

(** [static int32_t base_address = 0;]: the value at program start. *)
Definition base_address_at_start : Z := 0.

(** ** main.c *)

(** What a run of the program reports. *)
Inductive report :=
| RecordError (code : Z) (line : Z)
| EOFError (code : Z) (line : Z)
| Records (shown : list display).

(** [main]: the three passes over [hex_file.hex], each on the file opened
    anew.  [file_problem] and [EOF_problem] are the two uninitialised
    [Error_t] of [main]; [g1] and [g3] stand for the uninitialised locals
    of the calls of the first and of the third pass.  The third pass is the
    only place where [displayRecordInfo] is called, so its static starts
    there from [base_address_at_start]. *)
Definition main (g1 g3 : Z -> IntelHexRecord_t) (last_line0 EOF_line0 : string)
    (file_problem EOF_problem : Error_t) (file : list string)
  : option report :=
  match analyzeIntelHexFile g1 file file_problem with
  | None => None
  | Some (file_error_code, file_problem', _) =>
      if (1 <=? file_error_code) && (file_error_code <=? 5) then
        Some (RecordError file_error_code (error_line file_problem'))
      else
        let '(EOF_error_code, EOF_problem') :=
          checkEOF last_line0 EOF_line0 file EOF_problem in
        if negb (EOF_error_code =? 0) then
          Some (EOFError EOF_error_code (error_line EOF_problem'))
        else
          match printIntelHexFile g3 file base_address_at_start with
          | None => None
          | Some (shown, _) => Some (Records shown)
          end
  end.

(** ** Sample lines *)

Definition nl : string := String "010"%char EmptyString.

Definition data_line : string := (":0300300002337A1E" ++ nl)%string.
Definition ela_line : string := (":020000040001F9" ++ nl)%string.
Definition esa_line : string := (":020000021200EA" ++ nl)%string.
Definition eof_line : string := (":00000001FF" ++ nl)%string.

(** A record whose fields and block hold [v] everywhere. *)
Definition filled (v : Z) : IntelHexRecord_t :=
  mkRecord v v v (fun _ => v) v.

(** ** Notions used to state the properties *)

(** Every line of [lines] passes [checkRecord], the first one being line
    [n] of the file. *)
Fixpoint all_valid (g : Z -> IntelHexRecord_t) (n : Z) (lines : list string)
  : Prop :=
  match lines with
  | [] => True
  | line :: rest => checkRecord (g n) line = Some 0 /\ all_valid g (n + 1) rest
  end.

(** The number of lines that [checkEOF] takes for End-Of-File records. *)
Definition count_EOF (lines : list string) : Z :=
  Z.of_nat (List.length (filter is_EOF_record lines)).

(** No line of [lines] is taken for an End-Of-File record. *)
Definition no_EOF (lines : list string) : Prop :=
  forall line, In line lines -> is_EOF_record line = false.

(** The conversions of the data loop all succeed, for [n] rounds from
    [i]. *)
Fixpoint data_convert (line : string) (i n : nat) : bool :=
  match n with
  | O => true
  | S n' =>
      match at_offset line (9 + Z.of_nat i * 2) with
      | None => true
      | Some p =>
          match scan_X (Some 2%nat) p with
          | Some _ => data_convert line (S i) n'
          | None => false
          end
      end
  end.

(** The byte count and address strings of the header convert, and so does
    every pair of data characters the byte count announces. *)
Definition all_converted (line : string) : bool :=
  match scan_header line with
  | None => true
  | Some (byte_count_str, address_str, _) =>
      match scan_X None byte_count_str, scan_X None address_str with
      | Some (bc, _), Some _ => data_convert line 0 (Z.to_nat bc)
      | _, _ => false
      end
  end.

(** ** Lines in the fixed layout of the format *)

(** The value of the first [n] characters of [s] when they are all
    hexadecimal digits, with what follows them. *)
Definition hex_prefix (n : nat) (s : string) : option (Z * string) :=
  let (ds, r) := take_hex n s in
  if (List.length ds =? n)%nat then Some (hex_value ds, r) else None.

(** Byte count, address and type of a line that has a colon and eight
    hexadecimal digits in its first nine columns. *)
Definition fixed_header (line : string) : option (Z * Z * Z) :=
  match line with
  | String c rest =>
      if is_char c 58 then
        match hex_prefix 2 rest with
        | None => None
        | Some (b, r1) =>
            match hex_prefix 4 r1 with
            | None => None
            | Some (a, r2) =>
                match hex_prefix 2 r2 with
                | None => None
                | Some (t, _) => Some (b, a, t)
                end
            end
        end
      else None
  | EmptyString => None
  end.

(** All characters of [s] are white space. *)
Fixpoint all_space (s : string) : bool :=
  match s with
  | EmptyString => true
  | String c r => isspace c && all_space r
  end.

Definition cr : string := String "013"%char EmptyString.

(** Byte count, address and type as [checkRecord] holds them after its
    three conversions, when the header scan gives three strings. *)
Definition checked_fields (u : IntelHexRecord_t) (line : string)
  : option (Z * Z * Z) :=
  match scan_header line with
  | Some (byte_count_str, address_str, record_type_str) =>
      let record :=
        parse_fields u byte_count_str address_str record_type_str in
      Some (byte_count record, address record, record_type record)
  | None => None
  end.

(** The same three fields as [displayRecordInfo] holds them after its
    header scan. *)
Definition displayed_fields (u : IntelHexRecord_t) (line : string)
  : Z * Z * Z :=
  let record := scan_header_X line (uninitialised u) in
  (byte_count record, address record, record_type record).

(** ** The block behind [record.data] *)

(** The stores of the data loop stay inside a block of [size] bytes: run
    for [n] rounds from [i], a round whose conversion succeeds writes the
    four bytes [i .. i + 3] of the block. *)
Fixpoint stores_in_block (line : string) (size : Z) (i n : nat) : bool :=
  match n with
  | O => true
  | S n' =>
      match at_offset line (9 + Z.of_nat i * 2) with
      | None => true
      | Some p =>
          match scan_X (Some 2%nat) p with
          | Some _ =>
              (Z.of_nat i + 4 <=? size) && stores_in_block line size (S i) n'
          | None => stores_in_block line size (S i) n'
          end
      end
  end.

(** [checkRecord]: the block is
    [malloc(record.byte_count * sizeof(uint8_t))], asked for once the
    fourth check has passed; a call that returns before has no block and
    stores nothing. *)
Definition checkRecord_in_block (u : IntelHexRecord_t) (line : string)
  : bool :=
  if starts_with_colon line then
    match scan_header line with
    | None => true
    | Some (byte_count_str, address_str, record_type_str) =>
        if valid_record_type record_type_str then
          let record :=
            parse_fields u byte_count_str address_str record_type_str in
          if to_u32 (data_byte line) =? byte_count record then
            stores_in_block line (byte_count record) 0
              (Z.to_nat (byte_count record))
          else true
        else true
    end
  else true.

(** [displayRecordInfo]: the block is asked for before the header is
    scanned, with the size the still uninitialised [record.byte_count]
    gives; the loop then runs for the byte count scanned from the line. *)
Definition displayRecordInfo_in_block (u : IntelHexRecord_t) (line : string)
  : bool :=
  let size := byte_count (uninitialised u) in
  let record := scan_header_X line (uninitialised u) in
  stores_in_block line size 0 (Z.to_nat (byte_count record)).

(** The calls of [checkRecord] on [lines], the first one being the call
    for line [n] of the file, all keep their stores inside their block. *)
Fixpoint all_in_block (g : Z -> IntelHexRecord_t) (n : Z)
    (lines : list string) : Prop :=
  match lines with
  | [] => True
  | line :: rest =>
      checkRecord_in_block (g n) line = true /\ all_in_block g (n + 1) rest
  end.

(** A data record without data bytes, at address 0x0010. *)
Definition empty_data_line : string := (":00001000F0" ++ nl)%string.

(** ** The format in its own words *)

(** The checksum field of a record [:BBAAAATTDD...DDCC] with [n] data
    bytes: the two hexadecimal digits [CC] that follow the data. *)
Definition trailing_checksum_field (line : string) (n : Z) : option Z :=
  match at_offset line (9 + 2 * n) with
  | None => None
  | Some p =>
      match hex_prefix 2 p with
      | Some (v, _) => Some v
      | None => None
      end
  end.

(** The lines of a file whose first eleven characters are exactly
    ":00000001FF". *)
Definition EOF_occurrences (lines : list string) : list string :=
  filter (fun line => String.eqb (substring 0 11 line) ":00000001FF") lines.

(** * Properties *)

(** ** Integer conversions *)

Lemma to_i32_congr (z : Z) : exists k, to_i32 z = z + k * 2 ^ 32.
Proof.
  unfold to_i32. cbv zeta.
  pose proof (Z.div_mod z (2 ^ 32) ltac:(lia)) as E.
  destruct (z mod 2 ^ 32 <? 2 ^ 31).
  - exists (- (z / 2 ^ 32)). lia.
  - exists (- (z / 2 ^ 32) - 1). lia.
Qed.

Lemma to_u32_congr (z : Z) : exists k, to_u32 z = z + k * 2 ^ 32.
Proof.
  unfold to_u32.
  pose proof (Z.div_mod z (2 ^ 32) ltac:(lia)) as E.
  exists (- (z / 2 ^ 32)). lia.
Qed.

Lemma mod256_of_congr (a b k : Z) :
  a = b + k * 2 ^ 32 -> a mod 256 = b mod 256.
Proof.
  intros ->.
  replace (b + k * 2 ^ 32) with (b + (k * 2 ^ 24) * 256) by lia.
  apply Z_mod_plus_full.
Qed.

Lemma to_i32_mod256 (z : Z) : to_i32 z mod 256 = z mod 256.
Proof. destruct (to_i32_congr z) as [k E]. exact (mod256_of_congr _ _ _ E). Qed.

Lemma to_u32_mod256 (z : Z) : to_u32 z mod 256 = z mod 256.
Proof. destruct (to_u32_congr z) as [k E]. exact (mod256_of_congr _ _ _ E). Qed.

Lemma to_u32_range (z : Z) : 0 <= to_u32 z < 2 ^ 32.
Proof. unfold to_u32. apply Z.mod_pos_bound. lia. Qed.

Lemma to_u8_range (z : Z) : 0 <= to_u8 z < 256.
Proof. unfold to_u8. change (2 ^ 8) with 256. apply Z.mod_pos_bound. lia. Qed.

Lemma to_u32_small (z : Z) : 0 <= z < 2 ^ 32 -> to_u32 z = z.
Proof. intros H. unfold to_u32. apply Z.mod_small. exact H. Qed.

Lemma to_i32_small (z : Z) : - 2 ^ 31 <= z < 2 ^ 31 -> to_i32 z = z.
Proof.
  intros H. unfold to_i32. cbv zeta.
  destruct (Z_lt_le_dec z 0) as [Hn | Hp].
  - replace (z mod 2 ^ 32) with (z + 2 ^ 32).
    + destruct (z + 2 ^ 32 <? 2 ^ 31) eqn:E.
      * apply Z.ltb_lt in E. lia.
      * lia.
    + apply Z.mod_unique with (q := -1); lia.
  - rewrite Z.mod_small by lia.
    destruct (z <? 2 ^ 31) eqn:E.
    + reflexivity.
    + apply Z.ltb_ge in E. lia.
Qed.

Lemma to_u32_of_i32 (z : Z) : to_u32 (to_i32 z) = to_u32 z.
Proof.
  destruct (to_i32_congr z) as [k E]. rewrite E.
  unfold to_u32. apply Z_mod_plus_full.
Qed.

(** ** The checksum computation *)

Lemma add_data_mod256 (m : nat -> Z) (n : nat) :
  forall c i, add_data m c i n mod 256 = (c + sum_data m i n) mod 256.
Proof.
  induction n as [| n IH]; intros c i; simpl.
  - f_equal. lia.
  - rewrite IH.
    rewrite Z.add_mod by lia. rewrite to_i32_mod256.
    rewrite <- Z.add_mod by lia. f_equal. lia.
Qed.

Lemma neg_mod256 (a b : Z) :
  a mod 256 = b mod 256 -> (- a) mod 256 = (- b) mod 256.
Proof.
  intros H.
  pose proof (Z.div_mod a 256 ltac:(lia)) as Ea.
  pose proof (Z.div_mod b 256 ltac:(lia)) as Eb.
  replace (- a) with (- b + (b / 256 - a / 256) * 256) by lia.
  apply Z_mod_plus_full.
Qed.

Lemma calculated_checksum_formula (record : IntelHexRecord_t) :
  calculated_checksum record = checksum_formula record.
Proof.
  unfold calculated_checksum, checksum_formula, high_byte, low_byte.
  cbv zeta.
  change 255 with (Z.ones 8) at 2. rewrite Z.land_ones by lia.
  change (2 ^ 8) with 256.
  rewrite to_i32_mod256.
  replace (Z.lnot _ + 1) with
    (- add_data (data record)
         (to_i32 (to_u32 (byte_count record + Z.shiftr (address record) 8
                          + Z.land (address record) 255
                          + record_type record)))
         0 (Z.to_nat (byte_count record)))
    by (unfold Z.lnot; lia).
  apply neg_mod256.
  rewrite add_data_mod256.
  rewrite Z.add_mod by lia. rewrite to_i32_mod256, to_u32_mod256.
  rewrite <- Z.add_mod by lia.
  rewrite Z.shiftr_div_pow2 by lia.
  change 255 with (Z.ones 8). rewrite Z.land_ones by lia.
  change (2 ^ 8) with 256.
  set (S := sum_data _ _ _).
  set (a := address record).
  rewrite (Z.add_mod (_ + _) S) by lia.
  rewrite (Z.add_mod (byte_count record + a / 256 mod 256 + a mod 256
                      + record_type record) S) by lia.
  f_equal. f_equal.
  pose proof (Z.div_mod (a / 256) 256 ltac:(lia)) as E.
  replace (byte_count record + a / 256 + a mod 256 + record_type record)
    with (byte_count record + (a / 256) mod 256 + a mod 256
          + record_type record + (a / 256 / 256) * 256) by lia.
  apply Z_mod_plus_full.
Qed.

Lemma to_i32_add_mul (z k : Z) : to_i32 (z + k * 2 ^ 32) = to_i32 z.
Proof. unfold to_i32. rewrite Z_mod_plus_full. reflexivity. Qed.

Lemma strlen_nonneg (s : string) : 0 <= strlen s.
Proof. unfold strlen. lia. Qed.

(** Quotient and remainder of [strlen line - 11] by 2, for [lia]. *)
Ltac quotient_facts line :=
  pose proof (Z.div_mod (strlen line - 11) 2 ltac:(lia));
  pose proof (Z.mod_pos_bound (strlen line - 11) 2 ltac:(lia)).

(** [data_byte] is the quotient rounded down, also below eleven characters,
    where the subtraction wraps in [size_t]. *)
Lemma data_byte_div (line : string) :
  strlen line < 2 ^ 32 -> data_byte line = (strlen line - 11) / 2.
Proof.
  intros Hlen. pose proof (strlen_nonneg line) as H0.
  unfold data_byte, to_u64.
  destruct (Z_lt_le_dec (strlen line) 11) as [Hs | Hl].
  - replace ((strlen line - 11) mod 2 ^ 64) with (strlen line - 11 + 2 ^ 64)
      by (apply Z.mod_unique with (q := -1); lia).
    replace (strlen line - 11 + 2 ^ 64) with (strlen line - 11 + 2 ^ 63 * 2)
      by lia.
    rewrite Z.div_add by lia.
    replace (2 ^ 63) with (2 ^ 31 * 2 ^ 32) by lia.
    rewrite to_i32_add_mul.
    apply to_i32_small.
    quotient_facts line. lia.
  - rewrite Z.mod_small by lia.
    apply to_i32_small.
    quotient_facts line. lia.
Qed.

(** ** What the conversions store *)

Lemma scan_X_range (w : option nat) (s : string) (v : Z) (r : string) :
  scan_X w s = Some (v, r) -> 0 <= v < 2 ^ 32.
Proof.
  unfold scan_X. intros H.
  repeat match type of H with
         | context [match ?x with _ => _ end] => destruct x
         end; try discriminate;
    injection H as <- _; apply to_u32_range.
Qed.

Lemma scan_field_byte_count_range (w : option nat) (str : string)
    (record : IntelHexRecord_t) :
  0 <= byte_count record < 2 ^ 32 ->
  0 <= byte_count (scan_field w str set_byte_count record) < 2 ^ 32.
Proof.
  intros H. unfold scan_field.
  destruct (scan_X w str) as [[v r] |] eqn:E.
  - simpl. exact (scan_X_range _ _ _ _ E).
  - exact H.
Qed.

Lemma scan_field_address_byte_count (w : option nat) (str : string)
    (record : IntelHexRecord_t) :
  byte_count (scan_field w str set_address record) = byte_count record.
Proof. unfold scan_field. destruct (scan_X w str) as [[v r] |]; reflexivity. Qed.

Lemma scan_field_type_byte_count (w : option nat) (str : string)
    (record : IntelHexRecord_t) :
  byte_count (scan_field w str set_record_type record) = byte_count record.
Proof. unfold scan_field. destruct (scan_X w str) as [[v r] |]; reflexivity. Qed.

Lemma parse_fields_byte_count_range (u : IntelHexRecord_t) (b a t : string) :
  0 <= byte_count (parse_fields u b a t) < 2 ^ 32.
Proof.
  unfold parse_fields. cbv zeta.
  rewrite scan_field_type_byte_count, scan_field_address_byte_count.
  apply scan_field_byte_count_range. simpl. apply to_u32_range.
Qed.

Lemma declared_byte_count_range (u : IntelHexRecord_t) (line : string) :
  0 <= declared_byte_count u line < 2 ^ 32.
Proof.
  unfold declared_byte_count.
  destruct (scan_header line) as [[[b a] t] |].
  - apply parse_fields_byte_count_range.
  - apply to_u32_range.
Qed.

(** ** checkRecord *)

Lemma checkRecord_at_checksum_step (u : IntelHexRecord_t) (line : string)
    (record : IntelHexRecord_t) (cs : Z) :
  checksum_step u line = Some (record, cs) ->
  checkRecord u line = Some (if calculated_checksum record =? cs then 0 else 5).
Proof.
  unfold checksum_step, checkRecord.
  destruct (starts_with_colon line); [| discriminate].
  destruct (scan_header line) as [[[b a] t] |]; [| discriminate].
  destruct (valid_record_type t); [| discriminate].
  cbv zeta.
  destruct (to_u32 (data_byte line) =? byte_count (parse_fields u b a t));
    [| discriminate].
  destruct (parse_data _ _ _ _) as [m |]; [| discriminate].
  destruct (checksum_record line) as [c |]; [| discriminate].
  intros H. injection H as <- <-. simpl.
  destruct (calculated_checksum _ =? c); reflexivity.
Qed.

Lemma checkRecord_codes_4_or_less (u : IntelHexRecord_t) (line : string) :
  checksum_step u line = None ->
  (starts_with_colon line = true /\ header_scanned line = true /\
   type_accepted line = true /\ count_matches u line = true /\
   checkRecord u line = None) \/
  (starts_with_colon line = false /\ checkRecord u line = Some 1) \/
  (starts_with_colon line = true /\ header_scanned line = false /\
   checkRecord u line = Some 2) \/
  (starts_with_colon line = true /\ header_scanned line = true /\
   type_accepted line = false /\ checkRecord u line = Some 3) \/
  (starts_with_colon line = true /\ header_scanned line = true /\
   type_accepted line = true /\ count_matches u line = false /\
   checkRecord u line = Some 4).
Proof.
  unfold checksum_step, checkRecord, header_scanned, type_accepted,
    count_matches, declared_byte_count.
  destruct (starts_with_colon line); simpl; [| auto].
  destruct (scan_header line) as [[[b a] t] |]; [| auto 6].
  destruct (valid_record_type t); simpl; [| auto 8].
  destruct (to_u32 (data_byte line) =? byte_count (parse_fields u b a t));
    simpl; [| auto 10].
  destruct (parse_data _ _ _ _) as [m |]; [| auto 10].
  destruct (checksum_record line) as [c |]; [discriminate | auto 10].
Qed.

Lemma checksum_step_checks (u : IntelHexRecord_t) (line : string)
    (record : IntelHexRecord_t) (cs : Z) :
  checksum_step u line = Some (record, cs) ->
  starts_with_colon line = true /\ header_scanned line = true /\
  type_accepted line = true /\ count_matches u line = true.
Proof.
  unfold checksum_step, header_scanned, type_accepted, count_matches,
    declared_byte_count.
  destruct (starts_with_colon line); [| discriminate].
  destruct (scan_header line) as [[[b a] t] |]; [| discriminate].
  destruct (valid_record_type t); [| discriminate].
  cbv zeta.
  destruct (to_u32 (data_byte line) =? byte_count (parse_fields u b a t));
    [| discriminate].
  auto.
Qed.

(** When [checkRecord] reaches the checksum, the value it computes is the
    two's complement in one byte of
    byte_count + high byte + low byte of the address + record_type + the
    data bytes, and it returns 5 exactly when that value differs from
    [checksum_record], the number read three characters before the end of
    the line, 0 otherwise. *)
Lemma checkRecord_validates_checksum (u : IntelHexRecord_t) (line : string)
    (record : IntelHexRecord_t) (cs : Z) :
  checksum_step u line = Some (record, cs) ->
  calculated_checksum record = checksum_formula record /\
  (checkRecord u line = Some 5 <-> checksum_formula record <> cs) /\
  (checkRecord u line = Some 0 <-> checksum_formula record = cs).
Proof.
  intros H. apply checkRecord_at_checksum_step in H.
  rewrite calculated_checksum_formula in H.
  split; [apply calculated_checksum_formula |].
  rewrite H.
  destruct (checksum_formula record =? cs) eqn:E.
  - apply Z.eqb_eq in E. split; split; intros; congruence.
  - apply Z.eqb_neq in E. split; split; intros; congruence.
Qed.

Lemma checkRecord_validates_checksum_witness :
  exists record,
    checksum_step (filled 77) data_line = Some (record, 30) /\
    checksum_formula record = 30 /\
    checkRecord (filled 77) data_line = Some 0.
Proof.
  destruct (checksum_step (filled 77) data_line) as [[record cs] |] eqn:E;
    [| vm_compute in E; discriminate].
  pose proof (checkRecord_validates_checksum _ _ _ _ E) as [_ [_ H0]].
  vm_compute in E. injection E as <- <-.
  eexists. split; [reflexivity |]. split; [reflexivity |].
  apply H0. reflexivity.
Defined.

(** The checksum is read three characters before the end of the line: two
    digits and one terminator.  On a last line that [fgets] returns without
    its newline the two characters read are not the checksum field, and the
    End-Of-File record itself gets code 5. *)
Lemma checkRecord_unterminated_line (u : IntelHexRecord_t) :
  checksum_record (":00000001FF" ++ nl) = Some 0xFF /\
  checksum_record ":00000001FF" = Some 0x1F /\
  checkRecord u (":00000001FF" ++ nl) = Some 0 /\
  checkRecord u ":00000001FF" = Some 5.
Proof. repeat split; vm_compute; reflexivity. Qed.

(** C1.  The number compared with the computed checksum is not tied to
    the checksum field of the record: it is read three characters before
    the end of the line, wherever the field is.  On ":00000001FF" as
    [fgets] returns it from a file that does not end in a newline, the
    field FF is what the formula gives, the number read is 1F and
    [checkRecord] returns 5; on ":0000F80080" the field 80 is not what the
    formula gives, 08, the number read is 08 and [checkRecord] returns 0.
    Followed by a newline the same two records get 0 and 5. *)
Theorem checkRecord_misreads_checksum_field (u : IntelHexRecord_t) :
  (exists record,
     checksum_step u ":00000001FF" = Some (record, 0x1F) /\
     byte_count record = 0 /\
     trailing_checksum_field ":00000001FF" (byte_count record) = Some 0xFF /\
     checksum_formula record = 0xFF /\
     checkRecord u ":00000001FF" = Some 5) /\
  (exists record,
     checksum_step u ":0000F80080" = Some (record, 0x08) /\
     byte_count record = 0 /\
     trailing_checksum_field ":0000F80080" (byte_count record) = Some 0x80 /\
     checksum_formula record = 0x08 /\
     checkRecord u ":0000F80080" = Some 0) /\
  checkRecord u (":00000001FF" ++ nl) = Some 0 /\
  checkRecord u (":0000F80080" ++ nl) = Some 5.
Proof.
  split; [| split; [| split; vm_compute; reflexivity]].
  - exists (mkRecord 0 0 1 (data (uninitialised u))
              (checksum (uninitialised u))).
    split; [reflexivity |]. split; [reflexivity |].
    split; [reflexivity |]. split; [reflexivity |].
    vm_compute. reflexivity.
  - exists (mkRecord 0 0xF8 0 (data (uninitialised u))
              (checksum (uninitialised u))).
    split; [reflexivity |]. split; [reflexivity |].
    split; [reflexivity |]. split; [reflexivity |].
    vm_compute. reflexivity.
Qed.

(** The cases of [checkRecord], each with the checks that lead to it. *)
Lemma checkRecord_cases (u : IntelHexRecord_t) (line : string) :
  (checkRecord u line = Some 1 <-> starts_with_colon line = false) /\
  (checkRecord u line = Some 2 <->
     starts_with_colon line = true /\ header_scanned line = false) /\
  (checkRecord u line = Some 3 <->
     starts_with_colon line = true /\ header_scanned line = true /\
     type_accepted line = false) /\
  (checkRecord u line = Some 4 <->
     starts_with_colon line = true /\ header_scanned line = true /\
     type_accepted line = true /\ count_matches u line = false) /\
  (checkRecord u line = Some 5 <->
     exists record cs, checksum_step u line = Some (record, cs) /\
                       calculated_checksum record <> cs) /\
  (checkRecord u line = Some 0 <->
     exists record cs, checksum_step u line = Some (record, cs) /\
                       calculated_checksum record = cs) /\
  (forall record cs, checksum_step u line = Some (record, cs) ->
     starts_with_colon line = true /\ header_scanned line = true /\
     type_accepted line = true /\ count_matches u line = true) /\
  (forall c, checkRecord u line = Some c -> 0 <= c <= 5).
Proof.
  assert (D : forall a b : Z, Some a = Some b -> a = b)
    by (intros a b H; injection H; auto).
  destruct (checksum_step u line) as [[record cs] |] eqn:E.
  - pose proof (checksum_step_checks _ _ _ _ E) as (H1 & H2 & H3 & H4).
    pose proof (checkRecord_at_checksum_step _ _ _ _ E) as R.
    rewrite R, H1, H2, H3, H4.
    assert (X5 : (exists r c, Some (record, cs) = Some (r, c) /\
                              calculated_checksum r <> c) <->
                 calculated_checksum record <> cs).
    { split.
      - intros (r & c & Hr & Hc). injection Hr as <- <-. exact Hc.
      - intros Hc. exists record, cs. auto. }
    assert (X0 : (exists r c, Some (record, cs) = Some (r, c) /\
                              calculated_checksum r = c) <->
                 calculated_checksum record = cs).
    { split.
      - intros (r & c & Hr & Hc). injection Hr as <- <-. exact Hc.
      - intros Hc. exists record, cs. auto. }
    rewrite X5, X0.
    destruct (calculated_checksum record =? cs) eqn:C;
      [apply Z.eqb_eq in C | apply Z.eqb_neq in C];
      repeat match goal with |- _ /\ _ => split end;
      try (split; intros K; try (apply D in K); try discriminate;
           try tauto; try lia; destruct K as (? & ?); try discriminate;
           intuition discriminate);
      try (intros r c K; auto);
      try (intros c K; apply D in K; lia).
  - assert (X5 : (exists r c, @None (IntelHexRecord_t * Z) = Some (r, c) /\
                              calculated_checksum r <> c) <-> False).
    { split; [intros (r & c & Hr & _); discriminate | tauto]. }
    assert (X0 : (exists r c, @None (IntelHexRecord_t * Z) = Some (r, c) /\
                              calculated_checksum r = c) <-> False).
    { split; [intros (r & c & Hr & _); discriminate | tauto]. }
    rewrite X5, X0.
    destruct (checkRecord_codes_4_or_less u line E)
      as [(H1 & H2 & H3 & H4 & R) | [(H1 & R) | [(H1 & H2 & R)
         | [(H1 & H2 & H3 & R) | (H1 & H2 & H3 & H4 & R)]]]];
      rewrite R; try rewrite H1; try rewrite H2; try rewrite H3;
      try rewrite H4;
      repeat match goal with |- _ /\ _ => split end;
      try (split; intros K; try (apply D in K); try discriminate;
           try tauto; try lia; intuition discriminate);
      try (intros r c K; discriminate);
      try (intros c K; try discriminate; apply D in K; lia).
Qed.

(** ** Reads inside the line *)

Lemma drop_defined (n : nat) :
  forall s, (n <= String.length s)%nat -> exists p, drop n s = Some p.
Proof.
  induction n as [| n IH]; intros s H; simpl.
  - eauto.
  - destruct s as [| c r]; simpl in H; [lia |].
    apply IH. lia.
Qed.

Lemma at_offset_defined (line : string) (k : Z) :
  0 <= k <= strlen line -> exists p, at_offset line k = Some p.
Proof.
  intros H. unfold at_offset.
  destruct (k <? 0) eqn:E; [apply Z.ltb_lt in E; lia |].
  apply drop_defined. unfold strlen in H. lia.
Qed.

Lemma parse_data_defined (line : string) (n : nat) :
  forall m i,
    9 + 2 * (Z.of_nat i + Z.of_nat n) <= strlen line + 2 ->
    exists m', parse_data line m i n = Some m'.
Proof.
  induction n as [| n IH]; intros m i H; cbn [parse_data].
  - eauto.
  - destruct (at_offset_defined line (9 + Z.of_nat i * 2)) as [p ->];
      [lia |].
    apply IH. lia.
Qed.

Lemma checksum_record_defined (line : string) :
  3 <= strlen line -> exists cs, checksum_record line = Some cs.
Proof.
  intros H. unfold checksum_record.
  destruct (at_offset_defined line (strlen line - 3)) as [p ->]; [lia |].
  destruct (scan_X (Some 2%nat) p) as [[v r] |]; eauto.
Qed.

(** On a line of eleven characters or more, [checkRecord] returns a code. *)
Lemma checkRecord_defined_long (u : IntelHexRecord_t) (line : string) :
  11 <= strlen line < 2 ^ 32 -> exists c, checkRecord u line = Some c.
Proof.
  intros H. unfold checkRecord.
  destruct (starts_with_colon line); simpl; [| eauto].
  destruct (scan_header line) as [[[b a] t] |]; [| eauto].
  destruct (valid_record_type t); simpl; [| eauto].
  destruct (to_u32 (data_byte line) =? byte_count (parse_fields u b a t))
    eqn:E; simpl; [| eauto].
  apply Z.eqb_eq in E. rewrite <- E.
  rewrite data_byte_div by lia.
  quotient_facts line.
  rewrite to_u32_small by lia.
  destruct (parse_data_defined line (Z.to_nat ((strlen line - 11) / 2))
              (data (parse_fields u b a t)) 0) as [m ->].
  { rewrite Z2Nat.id by lia. change (Z.of_nat 0) with 0. lia. }
  destruct (checksum_record_defined line) as [cs ->]; [lia |].
  destruct (negb _); eauto.
Qed.

(** The byte count comparison, in terms of the quotient. *)
Lemma count_matches_div (u : IntelHexRecord_t) (line : string) :
  strlen line < 2 ^ 32 -> declared_byte_count u line < 2 ^ 31 ->
  (count_matches u line = false <->
   (strlen line - 11) / 2 <> declared_byte_count u line).
Proof.
  intros Hlen Hbc. unfold count_matches.
  pose proof (declared_byte_count_range u line) as R.
  pose proof (strlen_nonneg line) as H0.
  rewrite data_byte_div by exact Hlen.
  quotient_facts line.
  rewrite Z.eqb_neq.
  destruct (Z_lt_le_dec (strlen line) 11) as [Hs | Hl].
  - replace (to_u32 ((strlen line - 11) / 2))
      with ((strlen line - 11) / 2 + 2 ^ 32)
      by (unfold to_u32; apply Z.mod_unique with (q := -1); lia).
    split; intros _; lia.
  - rewrite to_u32_small by lia. tauto.
Qed.

(** With a byte count below 2^31, as any two hexadecimal digits give,
    [checkRecord] returns a code on every line. *)
Lemma checkRecord_defined (u : IntelHexRecord_t) (line : string) :
  strlen line < 2 ^ 32 -> declared_byte_count u line < 2 ^ 31 ->
  exists c, checkRecord u line = Some c.
Proof.
  intros Hlen Hbc.
  destruct (Z_lt_le_dec (strlen line) 11) as [Hs | Hl].
  - destruct (checkRecord_cases u line) as (C1 & C2 & C3 & C4 & _).
    destruct (starts_with_colon line) eqn:E1;
      [| exists 1; apply C1; reflexivity].
    destruct (header_scanned line) eqn:E2;
      [| exists 2; apply C2; auto].
    destruct (type_accepted line) eqn:E3;
      [| exists 3; apply C3; auto].
    exists 4. apply C4. repeat split; auto.
    apply count_matches_div; auto.
    pose proof (declared_byte_count_range u line) as R.
    quotient_facts line. lia.
  - apply checkRecord_defined_long. lia.
Qed.

(** C2.  [checkRecord] returns one code, fixed by the first check that
    fails: 1 when the line does not start with a colon; 2 when it does and
    the header scan does not give three strings; 3 when both pass and the
    type is not accepted; 4 when these pass and the byte count differs; 5
    when all four pass and the checksum differs; 0 when nothing fails.  A
    later check decides only when every earlier one passed, and a code is
    returned on every line of eleven characters or more. *)
Theorem checkRecord_first_match (u : IntelHexRecord_t) (line : string) :
  (checkRecord u line = Some 1 <-> starts_with_colon line = false) /\
  (checkRecord u line = Some 2 <->
     starts_with_colon line = true /\ header_scanned line = false) /\
  (checkRecord u line = Some 3 <->
     starts_with_colon line = true /\ header_scanned line = true /\
     type_accepted line = false) /\
  (checkRecord u line = Some 4 <->
     starts_with_colon line = true /\ header_scanned line = true /\
     type_accepted line = true /\ count_matches u line = false) /\
  (checkRecord u line = Some 5 <->
     starts_with_colon line = true /\ header_scanned line = true /\
     type_accepted line = true /\ count_matches u line = true /\
     exists record cs, checksum_step u line = Some (record, cs) /\
                       calculated_checksum record <> cs) /\
  (checkRecord u line = Some 0 <->
     starts_with_colon line = true /\ header_scanned line = true /\
     type_accepted line = true /\ count_matches u line = true /\
     exists record cs, checksum_step u line = Some (record, cs) /\
                       calculated_checksum record = cs) /\
  (forall c, checkRecord u line = Some c -> 0 <= c <= 5) /\
  (11 <= strlen line < 2 ^ 32 -> exists c, checkRecord u line = Some c).
Proof.
  destruct (checkRecord_cases u line) as (C1 & C2 & C3 & C4 & C5 & C0 & S & R).
  repeat match goal with |- _ /\ _ => split end; auto.
  - split.
    + intros H. apply C5 in H. destruct H as (r & c & Hs & Hc).
      destruct (S r c Hs) as (? & ? & ? & ?). eauto 10.
    + intros (_ & _ & _ & _ & H). apply C5. exact H.
  - split.
    + intros H. apply C0 in H. destruct H as (r & c & Hs & Hc).
      destruct (S r c Hs) as (? & ? & ? & ?). eauto 10.
    + intros (_ & _ & _ & _ & H). apply C0. exact H.
  - apply checkRecord_defined_long.
Qed.

Lemma checkRecord_first_match_witness :
  (exists c, checkRecord (filled 77) data_line = Some c) /\
  checkRecord (filled 77) (":0400300002337A1E" ++ nl) = Some 4 /\
  checkRecord (filled 77) (":0300300902337A1E" ++ nl) = Some 3 /\
  checkRecord (filled 77) (":03" ++ nl) = Some 2 /\
  checkRecord (filled 77) ("0300300002337A1E" ++ nl) = Some 1.
Proof.
  split; [| split; [| split; [| split]]].
  - apply (proj2 (proj2 (proj2 (proj2 (proj2 (proj2 (proj2
      (checkRecord_first_match (filled 77) data_line)))))))).
    split; [vm_compute; discriminate | vm_compute; reflexivity].
  - apply (proj1 (proj2 (proj2 (proj2
      (checkRecord_first_match (filled 77) (":0400300002337A1E" ++ nl)))))).
    vm_compute. auto.
  - apply (proj1 (proj2 (proj2
      (checkRecord_first_match (filled 77) (":0300300902337A1E" ++ nl))))).
    vm_compute. auto.
  - apply (proj1 (proj2
      (checkRecord_first_match (filled 77) (":03" ++ nl)))).
    vm_compute. auto.
  - apply (proj1
      (checkRecord_first_match (filled 77) ("0300300002337A1E" ++ nl))).
    vm_compute. auto.
Defined.

(** C6.  On a line that passes the start, header and type checks, the
    count [checkRecord] compares is (strlen line - 11) / 2, the quotient
    rounded down over the whole line with its terminator, and the result is
    4 exactly when it differs from the byte count of the record. *)
Theorem checkRecord_byte_count (u : IntelHexRecord_t) (line : string) :
  starts_with_colon line = true ->
  header_scanned line = true ->
  type_accepted line = true ->
  strlen line < 2 ^ 32 ->
  declared_byte_count u line < 2 ^ 31 ->
  data_byte line = (strlen line - 11) / 2 /\
  (checkRecord u line = Some 4 <->
   (strlen line - 11) / 2 <> declared_byte_count u line).
Proof.
  intros H1 H2 H3 Hlen Hbc.
  split; [apply data_byte_div; exact Hlen |].
  destruct (checkRecord_cases u line) as (_ & _ & _ & C4 & _).
  rewrite C4, <- (count_matches_div u line Hlen Hbc). tauto.
Qed.

Lemma checkRecord_byte_count_witness :
  data_byte data_line = 3 /\
  declared_byte_count (filled 77) (":0400300002337A1E" ++ nl) = 4 /\
  checkRecord (filled 77) (":0400300002337A1E" ++ nl) = Some 4.
Proof.
  split; [reflexivity |]. split; [reflexivity |].
  apply (proj2 (checkRecord_byte_count (filled 77)
                  (":0400300002337A1E" ++ nl)
                  eq_refl eq_refl eq_refl ltac:(vm_compute; reflexivity)
                  ltac:(vm_compute; reflexivity))).
  vm_compute. discriminate.
Defined.

(** ** analyzeIntelHexFile *)

Section AnalyzeIntelHexFile.

(** What the uninitialised locals of [checkRecord] hold, call by call. *)
Variable g : Z -> IntelHexRecord_t.

Lemma analyze_loop_stopped (fptr : list string) (n : Z) (error : Error_t) :
  analyze_loop g fptr false n error = Some (error, tl fptr).
Proof. destruct fptr; reflexivity. Qed.

Lemma analyze_loop_valid_prefix (pre : list string) :
  forall rest n error,
    all_valid g n pre ->
    analyze_loop g (pre ++ rest) true n error =
    analyze_loop g rest true (n + Z.of_nat (List.length pre))
      (match pre with
       | [] => error
       | _ => mkError 0 (error_line error)
       end).
Proof.
  induction pre as [| line pre IH]; intros rest n error H.
  - simpl. rewrite Z.add_0_r. reflexivity.
  - destruct H as [Hl Hr].
    cbn [app analyze_loop]. rewrite Hl. cbn [negb].
    change (error_code (mkError (to_u32 0) (error_line error)) =? 0)
      with true.
    cbn [negb].
    rewrite (IH rest (n + 1) _ Hr).
    replace (n + 1 + Z.of_nat (List.length pre))
      with (n + Z.of_nat (List.length (line :: pre)))
      by (cbn [List.length]; lia).
    destruct pre; reflexivity.
Qed.

Lemma checkRecord_code_range (u : IntelHexRecord_t) (line : string) (c : Z) :
  checkRecord u line = Some c -> 0 <= c <= 5.
Proof.
  destruct (checkRecord_cases u line) as (_ & _ & _ & _ & _ & _ & _ & R).
  apply R.
Qed.

(** The scan stops at the first line that fails: it returns that line's
    code with its number, whatever follows; one more line has been taken
    from the stream by then. *)
Lemma analyzeIntelHexFile_fail_fast (pre : list string) (line : string)
    (rest : list string) (error : Error_t) (c : Z) :
  all_valid g 1 pre ->
  checkRecord (g (1 + Z.of_nat (List.length pre))) line = Some c ->
  c <> 0 ->
  1 + Z.of_nat (List.length pre) < 2 ^ 32 ->
  analyzeIntelHexFile g (pre ++ line :: rest) error =
  Some (c, mkError c (1 + Z.of_nat (List.length pre)), tl rest).
Proof.
  intros Hpre Hline Hc Hlen.
  pose proof (checkRecord_code_range _ _ _ Hline) as R.
  unfold analyzeIntelHexFile.
  rewrite (analyze_loop_valid_prefix pre _ 1 error Hpre).
  cbn [analyze_loop negb]. rewrite Hline.
  cbn [error_code error_line].
  rewrite (to_u32_small c) by lia.
  destruct (c =? 0) eqn:E; [apply Z.eqb_eq in E; contradiction |].
  cbn [negb]. rewrite analyze_loop_stopped.
  cbn [error_code]. rewrite to_i32_small by lia.
  rewrite to_u32_small by lia. reflexivity.
Qed.

(** On a file of at least one line, all of them valid, the scan returns 0. *)
Lemma analyzeIntelHexFile_all_valid (line : string) (lines : list string)
    (error : Error_t) :
  all_valid g 1 (line :: lines) ->
  analyzeIntelHexFile g (line :: lines) error =
  Some (0, mkError 0 (error_line error), []).
Proof.
  intros H. unfold analyzeIntelHexFile.
  pose proof (analyze_loop_valid_prefix (line :: lines) [] 1 error H) as E.
  rewrite app_nil_r in E. rewrite E. reflexivity.
Qed.

(** C3.  On a file without lines every line passes, and
    [analyzeIntelHexFile] returns the error code its caller's structure
    held before the call, not 0: the loop body, the only place where the
    code is written, is never entered. *)
Theorem analyzeIntelHexFile_empty_file :
  all_valid g 1 [] /\
  (forall error,
     analyzeIntelHexFile g [] error =
     Some (to_i32 (error_code error), error, [])) /\
  analyzeIntelHexFile g [] (mkError 3 9) = Some (3, mkError 3 9, []).
Proof.
  split; [exact I |]. split; [intros error |]; reflexivity.
Qed.

End AnalyzeIntelHexFile.

(** ** checkEOF *)

Lemma strncmp_eq_prefix (b : string) :
  forall a,
    strncmp_eq a b (String.length b) = true <->
    exists rest, a = (b ++ rest)%string.
Proof.
  induction b as [| y b IH]; intros a.
  - simpl. split; [intros _; exists a; reflexivity | reflexivity].
  - cbn [String.length strncmp_eq].
    destruct a as [| x a].
    + split; [discriminate | intros [rest H]; discriminate].
    + rewrite andb_true_iff, Ascii.eqb_eq, IH.
      split.
      * intros [-> [rest ->]]. exists rest. reflexivity.
      * intros [rest H]. simpl in H. injection H as -> ->. eauto.
Qed.

Lemma is_EOF_record_prefix (line : string) :
  is_EOF_record line = true <-> exists rest, line = (EOF_record ++ rest)%string.
Proof. exact (strncmp_eq_prefix EOF_record line). Qed.

Lemma to_i8_succ (n : Z) : to_i8 (to_i8 n + 1) = to_i8 (n + 1).
Proof.
  unfold to_i8. cbv zeta.
  assert (E : (n mod 2 ^ 8 + 1) mod 2 ^ 8 = (n + 1) mod 2 ^ 8)
    by (rewrite Z.add_mod_idemp_l by lia; reflexivity).
  destruct (n mod 2 ^ 8 <? 2 ^ 7).
  - rewrite E. reflexivity.
  - replace (n mod 2 ^ 8 - 2 ^ 8 + 1) with (n mod 2 ^ 8 + 1 + (-1) * 2 ^ 8)
      by lia.
    rewrite Z_mod_plus_full, E. reflexivity.
Qed.

Lemma to_i8_small (n : Z) : 0 <= n <= 127 -> to_i8 n = n.
Proof.
  intros H. unfold to_i8. cbv zeta. rewrite Z.mod_small by lia.
  destruct (n <? 2 ^ 7) eqn:E; [reflexivity | apply Z.ltb_ge in E; lia].
Qed.

Lemma to_i8_high (n : Z) : 128 <= n <= 255 -> to_i8 n = n - 256.
Proof.
  intros H. unfold to_i8. cbv zeta. rewrite Z.mod_small by lia.
  destruct (n <? 2 ^ 7) eqn:E; [apply Z.ltb_lt in E; lia | reflexivity].
Qed.

Lemma to_i8_not_0_1 (n : Z) : 2 <= n <= 255 -> to_i8 n <> 0 /\ to_i8 n <> 1.
Proof.
  intros H. destruct (Z_le_gt_dec n 127).
  - rewrite to_i8_small by lia. lia.
  - rewrite to_i8_high by lia. lia.
Qed.

Lemma count_EOF_cons (line : string) (lines : list string) :
  count_EOF (line :: lines) =
  (if is_EOF_record line then 1 else 0) + count_EOF lines.
Proof.
  unfold count_EOF. cbn [filter].
  destruct (is_EOF_record line); cbn [List.length]; lia.
Qed.

Lemma count_EOF_nonneg (lines : list string) : 0 <= count_EOF lines.
Proof. unfold count_EOF. lia. Qed.

Lemma count_EOF_app (l1 l2 : list string) :
  count_EOF (l1 ++ l2) = count_EOF l1 + count_EOF l2.
Proof.
  unfold count_EOF. rewrite filter_app, length_app. lia.
Qed.

Lemma no_EOF_count (lines : list string) :
  no_EOF lines <-> count_EOF lines = 0.
Proof.
  induction lines as [| line lines IH].
  - split; [reflexivity | intros _ l []].
  - rewrite count_EOF_cons. pose proof (count_EOF_nonneg lines) as P.
    split.
    + intros H. rewrite (H line (or_introl eq_refl)).
      apply IH. intros l Hl. apply H. right. exact Hl.
    + intros H l [<- | Hl].
      * destruct (is_EOF_record line); [lia | reflexivity].
      * apply IH; [| exact Hl]. destruct (is_EOF_record line); lia.
Qed.

Lemma last_cons {A : Type} (l : list A) :
  forall x d, last (x :: l) d = last l x.
Proof.
  induction l as [| y l IH]; intros x d.
  - reflexivity.
  - change (last (x :: y :: l) d) with (last (y :: l) d).
    rewrite (IH y d), (IH y x). reflexivity.
Qed.

(** What the loop leaves in the locals: the counter is the number of
    End-Of-File lines reduced to eight bits, [last_line] the last line
    read, [EOF_line] the last End-Of-File line read. *)
Lemma eof_loop_locals (lines : list string) :
  forall st n,
    found_EOF st = to_i8 n ->
    let st' := fold_left eof_step lines st in
    found_EOF st' = to_i8 (n + count_EOF lines) /\
    line_of_file st' = line_of_file st + Z.of_nat (List.length lines) /\
    last_line st' = last lines (last_line st) /\
    EOF_line st' = last (filter is_EOF_record lines) (EOF_line st).
Proof.
  induction lines as [| line lines IH]; intros st n Hn.
  - cbn. rewrite Z.add_0_r. change (count_EOF []) with 0.
    rewrite Z.add_0_r. auto.
  - cbn [fold_left]. cbv zeta.
    rewrite count_EOF_cons.
    destruct (is_EOF_record line) eqn:E.
    + destruct (IH (eof_step st line) (n + 1)) as (F & L & A & B).
      { unfold eof_step. rewrite E. cbn [found_EOF]. rewrite Hn.
        apply to_i8_succ. }
      cbv zeta in F, L, A, B.
      rewrite F, L, A, B.
      unfold eof_step. rewrite E. cbn [line_of_file last_line EOF_line filter].
      rewrite E.
      repeat split.
      * f_equal. lia.
      * cbn [List.length]. lia.
      * symmetry. apply last_cons.
      * symmetry. apply last_cons.
    + destruct (IH (eof_step st line) n) as (F & L & A & B).
      { unfold eof_step. rewrite E. exact Hn. }
      cbv zeta in F, L, A, B.
      rewrite F, L, A, B.
      unfold eof_step. rewrite E. cbn [line_of_file last_line EOF_line filter].
      rewrite E.
      repeat split.
      * cbn [List.length]. lia.
      * symmetry. apply last_cons.
Qed.

(** Once the counter is not 0, and as long as it does not wrap back to 0,
    [error->error_line] keeps the number of the first End-Of-File line. *)
Lemma eof_loop_keeps_line (lines : list string) :
  forall st n,
    found_EOF st = to_i8 n -> 1 <= n -> n + count_EOF lines <= 255 ->
    err (fold_left eof_step lines st) = err st.
Proof.
  induction lines as [| line lines IH]; intros st n Hn H1 H255.
  - reflexivity.
  - cbn [fold_left]. rewrite count_EOF_cons in H255.
    pose proof (count_EOF_nonneg lines) as P.
    destruct (is_EOF_record line) eqn:E.
    + rewrite (IH (eof_step st line) (n + 1)).
      * unfold eof_step. rewrite E. cbn [err].
        destruct (found_EOF st =? 0) eqn:Z0; [| reflexivity].
        apply Z.eqb_eq in Z0. rewrite Hn in Z0.
        destruct (Z_le_gt_dec n 127).
        -- rewrite to_i8_small in Z0 by lia. lia.
        -- rewrite to_i8_high in Z0 by lia. lia.
      * unfold eof_step. rewrite E. cbn [found_EOF]. rewrite Hn.
        apply to_i8_succ.
      * lia.
      * lia.
    + rewrite (IH (eof_step st line) n).
      * unfold eof_step. rewrite E. reflexivity.
      * unfold eof_step. rewrite E. exact Hn.
      * lia.
      * lia.
Qed.

Lemma eof_loop_no_EOF (lines : list string) (st : eof_scan) :
  no_EOF lines ->
  err (fold_left eof_step lines st) = err st /\
  found_EOF (fold_left eof_step lines st) = found_EOF st /\
  line_of_file (fold_left eof_step lines st) =
  line_of_file st + Z.of_nat (List.length lines).
Proof.
  revert st. induction lines as [| line lines IH]; intros st H.
  - cbn. rewrite Z.add_0_r. auto.
  - cbn [fold_left].
    destruct (IH (eof_step st line)) as (A & B & C).
    { intros l Hl. apply H. right. exact Hl. }
    rewrite A, B, C. unfold eof_step.
    rewrite (H line (or_introl eq_refl)). cbn [err found_EOF line_of_file].
    cbn [List.length]. repeat split. lia.
Qed.

Lemma no_EOF_filter (lines : list string) :
  no_EOF lines -> filter is_EOF_record lines = [].
Proof.
  intros H. apply no_EOF_count in H. unfold count_EOF in H.
  apply length_zero_iff_nil. lia.
Qed.

Lemma eof_verdict_range (st : eof_scan) : 0 <= eof_verdict st <= 3.
Proof.
  unfold eof_verdict.
  destruct (found_EOF st =? 0); [lia |].
  destruct (found_EOF st =? 1); [| lia].
  destruct (negb _); lia.
Qed.

Lemma checkEOF_result (last_line0 EOF_line0 : string) (lines : list string)
    (error : Error_t) :
  let st := fold_left eof_step lines (mkScan last_line0 EOF_line0 0 1 error) in
  checkEOF last_line0 EOF_line0 lines error =
  (eof_verdict st, mkError (eof_verdict st) (error_line (err st))).
Proof.
  cbv zeta. unfold checkEOF. cbv zeta.
  set (st := fold_left _ _ _).
  pose proof (eof_verdict_range st) as R.
  rewrite (to_u32_small (eof_verdict st)) by lia.
  rewrite to_i32_small by lia. reflexivity.
Qed.

(** The verdicts of [checkEOF] on a file with at most 255 End-Of-File
    lines: 1 without any; with a first one after [pre], its line number,
    and 0 or 2 by comparison with the last line when it is the only one, 3
    when another follows. *)
Lemma checkEOF_below_256 (last_line0 EOF_line0 : string)
    (lines : list string) (error : Error_t) :
  count_EOF lines <= 255 ->
  (count_EOF lines = 0 ->
   fst (checkEOF last_line0 EOF_line0 lines error) = 1) /\
  (forall pre e post,
     lines = pre ++ e :: post -> no_EOF pre -> is_EOF_record e = true ->
     1 + Z.of_nat (List.length pre) < 2 ^ 32 ->
     error_line (snd (checkEOF last_line0 EOF_line0 lines error)) =
     1 + Z.of_nat (List.length pre) /\
     (no_EOF post ->
      fst (checkEOF last_line0 EOF_line0 lines error) =
      if strcmp_eq (last lines e) e then 0 else 2) /\
     (1 <= count_EOF post ->
      fst (checkEOF last_line0 EOF_line0 lines error) = 3)).
Proof.
  intros H255.
  rewrite checkEOF_result. cbv zeta. cbn [fst snd error_line].
  set (st0 := mkScan last_line0 EOF_line0 0 1 error).
  destruct (eof_loop_locals lines st0 0 eq_refl) as (F & _ & A & B).
  cbv zeta in F, A, B. rewrite Z.add_0_l in F.
  unfold st0 in A, B. cbn [last_line EOF_line] in A, B. fold st0 in A, B.
  split.
  - intros H0. unfold eof_verdict. rewrite F, H0. reflexivity.
  - intros pre e post -> Hpre He Hlen.
    rewrite count_EOF_app, count_EOF_cons, He in H255, F.
    apply no_EOF_count in Hpre as Cpre. rewrite Cpre in H255, F.
    pose proof (count_EOF_nonneg post) as P.
    split; [| split].
    + rewrite fold_left_app. cbn [fold_left].
      destruct (eof_loop_no_EOF pre st0 Hpre) as (E1 & E2 & E3).
      rewrite (eof_loop_keeps_line post _ 1).
      * unfold eof_step at 1. rewrite He. cbn [err].
        rewrite E2, E3. cbn [found_EOF line_of_file st0 error_line].
        change (0 =? 0) with true. cbn [error_line].
        apply to_u32_small. lia.
      * unfold eof_step at 1. rewrite He. cbn [found_EOF]. rewrite E2.
        reflexivity.
      * lia.
      * lia.
    + intros Hpost. apply no_EOF_count in Hpost as Cpost.
      unfold eof_verdict. rewrite F, Cpost, A, B.
      change (to_i8 (0 + (1 + 0)) =? 0) with false.
      change (to_i8 (0 + (1 + 0)) =? 1) with true. cbv iota.
      rewrite filter_app. cbn [filter]. rewrite He.
      rewrite (no_EOF_filter pre Hpre), (no_EOF_filter post Hpost).
      cbn [app last].
      replace (last (pre ++ e :: post) last_line0)
        with (last (pre ++ e :: post) e).
      * destruct (strcmp_eq _ e); reflexivity.
      * clear. induction pre as [| x pre IH].
        -- cbn [app]. rewrite !last_cons. reflexivity.
        -- cbn [app]. rewrite !last_cons. reflexivity.
    + intros Hpost. unfold eof_verdict. rewrite F.
      destruct (to_i8_not_0_1 (0 + (1 + count_EOF post))) as [N0 N1];
        [lia |].
      apply Z.eqb_neq in N0, N1. rewrite N0, N1. reflexivity.
Qed.

(** C4.  With 256 End-Of-File lines the eight-bit counter [found_EOF] is
    back at 0 after the loop and [checkEOF] returns 1, the code for a
    missing End-Of-File record; with 257 it is back at 1 and, the last
    line being one of them, [checkEOF] returns 0 and has stored the number
    of the 257th line. *)
Theorem checkEOF_counter_wraps (last_line0 EOF_line0 : string)
    (error : Error_t) :
  count_EOF (repeat eof_line 256) = 256 /\
  checkEOF last_line0 EOF_line0 (repeat eof_line 256) error
  = (1, mkError 1 1) /\
  checkEOF last_line0 EOF_line0 (repeat eof_line 257) error
  = (0, mkError 0 257).
Proof.
  split; [vm_compute; reflexivity |].
  split; vm_compute; reflexivity.
Qed.

(** The verdict in terms of the eight-bit counter. *)
Lemma checkEOF_verdict (last_line0 EOF_line0 : string)
    (lines : list string) (error : Error_t) :
  fst (checkEOF last_line0 EOF_line0 lines error) =
  if to_i8 (count_EOF lines) =? 0 then 1
  else if to_i8 (count_EOF lines) =? 1 then
    if strcmp_eq (last lines last_line0)
         (last (filter is_EOF_record lines) EOF_line0)
    then 0 else 2
  else 3.
Proof.
  rewrite checkEOF_result. cbv zeta. cbn [fst].
  destruct (eof_loop_locals lines (mkScan last_line0 EOF_line0 0 1 error)
              0 eq_refl) as (F & _ & A & B).
  cbv zeta in F, A, B. rewrite Z.add_0_l in F.
  cbn [last_line EOF_line] in A, B.
  unfold eof_verdict. rewrite F, A, B.
  destruct (to_i8 (count_EOF lines) =? 0); [reflexivity |].
  destruct (to_i8 (count_EOF lines) =? 1); [| reflexivity].
  destruct (strcmp_eq _ _); reflexivity.
Qed.

Lemma strncmp_eq_substring (b : string) :
  forall a,
    strncmp_eq a b (String.length b)
    = String.eqb (substring 0 (String.length b) a) b.
Proof.
  induction b as [| y b IH]; intros a.
  - destruct a; reflexivity.
  - cbn [String.length strncmp_eq].
    destruct a as [| x a]; [reflexivity |].
    cbn [substring String.eqb]. rewrite IH. reflexivity.
Qed.

Lemma EOF_occurrences_counted (lines : list string) :
  EOF_occurrences lines = filter is_EOF_record lines.
Proof.
  unfold EOF_occurrences. apply filter_ext. intros line.
  symmetry. exact (strncmp_eq_substring EOF_record line).
Qed.

Lemma last_single_occurrence (lines : list string) (e d : string) :
  filter is_EOF_record lines = [e] -> last lines d = last lines e.
Proof.
  intros H. destruct lines as [| x lines]; [discriminate |].
  rewrite !last_cons. reflexivity.
Qed.

(** C10.  What [checkEOF] returns on a file with at most 255 lines whose
    first eleven characters are ":00000001FF", whatever follows them in
    the line: 1 when there is no such line, 3 when there are two or more,
    and with exactly one, 0 when the whole text of the last line of the
    file equals the whole text of that line, 2 when it differs. *)
Theorem checkEOF_occurrence_and_placement (last_line0 EOF_line0 : string)
    (lines : list string) (error : Error_t) :
  Z.of_nat (List.length (EOF_occurrences lines)) <= 255 ->
  fst (checkEOF last_line0 EOF_line0 lines error) =
  match EOF_occurrences lines with
  | [] => 1
  | [e] => if String.eqb (last lines e) e then 0 else 2
  | _ :: _ :: _ => 3
  end.
Proof.
  rewrite EOF_occurrences_counted. intros H255.
  rewrite checkEOF_verdict. unfold count_EOF.
  destruct (filter is_EOF_record lines) as [| e [| e' occ]] eqn:F.
  - reflexivity.
  - cbn [List.length last].
    change (to_i8 (Z.of_nat 1) =? 0) with false.
    change (to_i8 (Z.of_nat 1) =? 1) with true. cbv iota.
    rewrite (last_single_occurrence lines e last_line0 F).
    unfold strcmp_eq. reflexivity.
  - destruct (to_i8_not_0_1 (Z.of_nat (List.length (e :: e' :: occ))))
      as [N0 N1].
    { cbn [List.length] in H255 |- *. lia. }
    apply Z.eqb_neq in N0, N1. rewrite N0, N1. reflexivity.
Qed.

Lemma checkEOF_occurrence_and_placement_witness :
  fst (checkEOF "" "" [data_line; String.append ":00000001FF" "xyz"]
         (mkError 7 9)) = 0 /\
  fst (checkEOF "" "" [String.append ":00000001FFxyz" nl; data_line]
         (mkError 7 9)) = 2 /\
  fst (checkEOF "" "" [eof_line; String.append ":00000001FF" "xyz"]
         (mkError 7 9)) = 3 /\
  fst (checkEOF "" "" [data_line; ":00000001F"%string] (mkError 7 9)) = 1.
Proof.
  split; [| split; [| split]].
  - apply (checkEOF_occurrence_and_placement "" ""
             [data_line; String.append ":00000001FF" "xyz"] (mkError 7 9)).
    vm_compute. discriminate.
  - apply (checkEOF_occurrence_and_placement "" ""
             [String.append ":00000001FFxyz" nl; data_line] (mkError 7 9)).
    vm_compute. discriminate.
  - apply (checkEOF_occurrence_and_placement "" ""
             [eof_line; String.append ":00000001FF" "xyz"] (mkError 7 9)).
    vm_compute. discriminate.
  - apply (checkEOF_occurrence_and_placement "" ""
             [data_line; ":00000001F"%string] (mkError 7 9)).
    vm_compute. discriminate.
Defined.

(** ** displayRecordInfo *)

Lemma store32_bytes (m : nat -> Z) (i : nat) (v : Z) :
  (forall j, 0 <= m j < 256) -> forall j, 0 <= store32 m i v j < 256.
Proof.
  intros H j. unfold store32.
  destruct ((i <=? j)%nat && (j <? i + 4)%nat).
  - apply to_u8_range.
  - apply H.
Qed.

Lemma parse_data_bytes (line : string) (n : nat) :
  forall m i m',
    (forall j, 0 <= m j < 256) ->
    parse_data line m i n = Some m' ->
    forall j, 0 <= m' j < 256.
Proof.
  induction n as [| n IH]; intros m i m' Hm H; cbn [parse_data] in H.
  - injection H as <-. exact Hm.
  - destruct (at_offset line (9 + Z.of_nat i * 2)) as [p |]; [| discriminate].
    refine (IH _ _ _ _ H).
    destruct (scan_X (Some 2%nat) p) as [[v r] |].
    + apply store32_bytes. exact Hm.
    + exact Hm.
Qed.

Lemma scan_header_X_data (line : string) (record : IntelHexRecord_t) :
  data (scan_header_X line record) = data record.
Proof.
  unfold scan_header_X.
  destruct line as [| c rest]; [reflexivity |].
  destruct (is_char c 58); [| reflexivity].
  destruct (scan_X (Some 2%nat) rest) as [[v1 r1] |]; [| reflexivity].
  destruct (scan_X (Some 4%nat) r1) as [[v2 r2] |]; [| reflexivity].
  destruct (scan_X (Some 2%nat) r2) as [[v3 r3] |]; reflexivity.
Qed.

Lemma parse_for_display_bytes (u : IntelHexRecord_t) (line : string)
    (record : IntelHexRecord_t) :
  parse_for_display u line = Some record ->
  forall j, 0 <= data record j < 256.
Proof.
  unfold parse_for_display. cbv zeta.
  destruct (at_offset line (strlen line - 3)) as [p |]; [| discriminate].
  destruct (parse_data _ _ _ _) as [m |] eqn:E; [| discriminate].
  intros H. injection H as <-. cbn [data set_data].
  refine (parse_data_bytes _ _ _ _ _ _ E).
  intros j.
  unfold scan_field. destruct (scan_X (Some 2%nat) p) as [[v r] |];
    cbn [data set_checksum]; rewrite scan_header_X_data;
    cbn [data uninitialised]; apply to_u8_range.
Qed.

Lemma scan_header_X_byte_count_range (line : string)
    (record : IntelHexRecord_t) :
  0 <= byte_count record < 2 ^ 32 ->
  0 <= byte_count (scan_header_X line record) < 2 ^ 32.
Proof.
  intros H. unfold scan_header_X.
  destruct line as [| c rest]; [exact H |].
  destruct (is_char c 58); [| exact H].
  destruct (scan_X (Some 2%nat) rest) as [[v1 r1] |] eqn:E1; [| exact H].
  pose proof (scan_X_range _ _ _ _ E1).
  destruct (scan_X (Some 4%nat) r1) as [[v2 r2] |]; [| assumption].
  destruct (scan_X (Some 2%nat) r2) as [[v3 r3] |]; assumption.
Qed.

(** [displayRecordInfo] stays inside the line when the line is at least
    as long as the byte count it has read requires. *)
Lemma parse_for_display_defined (u : IntelHexRecord_t) (line : string) :
  3 <= strlen line ->
  7 + 2 * byte_count (scan_header_X line (uninitialised u)) <= strlen line ->
  exists record, parse_for_display u line = Some record.
Proof.
  intros H3 Hbc. unfold parse_for_display. cbv zeta.
  destruct (at_offset_defined line (strlen line - 3)) as [p ->]; [lia |].
  assert (E : byte_count (scan_field (Some 2%nat) p set_checksum
                            (scan_header_X line (uninitialised u)))
              = byte_count (scan_header_X line (uninitialised u))).
  { unfold scan_field. destruct (scan_X (Some 2%nat) p) as [[v r] |];
      reflexivity. }
  rewrite E.
  destruct (parse_data_defined line
              (Z.to_nat (byte_count (scan_header_X line (uninitialised u))))
              (data (scan_field (Some 2%nat) p set_checksum
                       (scan_header_X line (uninitialised u)))) 0)
    as [m ->]; [| eauto].
  pose proof (scan_header_X_byte_count_range line (uninitialised u)
                (to_u32_range (byte_count u))) as R.
  change (Z.of_nat 0) with 0. lia.
Qed.

(** The address an Extended Linear Address record is shown with, for any
    value of the static. *)
Lemma displayRecordInfo_type_4 (u : IntelHexRecord_t) (line : string)
    (base_address : Z) (record : IntelHexRecord_t) :
  parse_for_display u line = Some record ->
  record_type record = 4 ->
  displayRecordInfo u line base_address =
  Some (ExtendedLinearAddress record (to_u32 base_address)
          (to_u32 (base_address + data record 0%nat * 0x1000000
                   + data record 1%nat * 0x10000)),
        base_address).
Proof.
  intros H T. unfold displayRecordInfo. rewrite H, T.
  change (4 =? 0) with false. change (4 =? 2) with false.
  change (4 =? 4) with true. cbv iota zeta.
  rewrite to_u32_of_i32. reflexivity.
Qed.

Lemma displayRecordInfo_type_2 (u : IntelHexRecord_t) (line : string)
    (base_address : Z) (record : IntelHexRecord_t) :
  parse_for_display u line = Some record ->
  record_type record = 2 ->
  displayRecordInfo u line base_address =
  Some (ExtendedSegmentAddress record (to_u32 base_address)
          (to_u32 (base_address + data record 0%nat * 0x1000
                   + data record 1%nat * 0x10)),
        base_address).
Proof.
  intros H T. unfold displayRecordInfo. rewrite H, T.
  change (2 =? 0) with false. change (2 =? 2) with true. cbv iota zeta.
  rewrite to_u32_of_i32. reflexivity.
Qed.

(** C7.  For an Extended Linear Address record, with the static holding a
    16-bit address, the address shown is
    base_address + data[0] * 0x1000000 + data[1] * 0x10000 and the static
    is left as it is; after the Data record at address 0x0030, the record
    with data bytes 00 01 is shown with 0x00010030. *)
Theorem displayRecordInfo_extended_linear (g : Z -> IntelHexRecord_t)
    (u : IntelHexRecord_t) (line : string) (base_address : Z)
    (record : IntelHexRecord_t) :
  parse_for_display u line = Some record ->
  record_type record = 4 ->
  0 <= base_address <= 0xFFFF ->
  displayRecordInfo u line base_address =
  Some (ExtendedLinearAddress record base_address
          (base_address + data record 0%nat * 0x1000000
           + data record 1%nat * 0x10000),
        base_address) /\
  option_map (fun r => (map shown_address (fst r), snd r))
    (printIntelHexFile g [data_line; ela_line] base_address_at_start)
  = Some ([None; Some 0x00010030], 0x0030).
Proof.
  intros H T B. split.
  - rewrite (displayRecordInfo_type_4 u line base_address record H T).
    pose proof (parse_for_display_bytes u line record H 0%nat) as D0.
    pose proof (parse_for_display_bytes u line record H 1%nat) as D1.
    rewrite !to_u32_small by lia. reflexivity.
  - vm_compute. reflexivity.
Qed.

Lemma displayRecordInfo_extended_linear_witness :
  option_map (fun r => (shown_address (fst r), snd r))
    (displayRecordInfo (filled 7) ela_line 0x0030)
  = Some (Some 0x00010030, 0x0030).
Proof.
  destruct (parse_for_display (filled 7) ela_line) as [record |] eqn:E;
    [| vm_compute in E; discriminate].
  assert (T : record_type record = 4)
    by (vm_compute in E; injection E as <-; reflexivity).
  destruct (displayRecordInfo_extended_linear (fun _ => filled 7) (filled 7)
              ela_line 0x0030 record E T
              ltac:(split; vm_compute; discriminate)) as [R _].
  rewrite R. vm_compute in E. injection E as <-. reflexivity.
Defined.

Lemma main_display_pass (g1 g3 : Z -> IntelHexRecord_t)
    (last_line0 EOF_line0 : string) (file_problem EOF_problem : Error_t)
    (file : list string) (shown : list display) :
  main g1 g3 last_line0 EOF_line0 file_problem EOF_problem file
  = Some (Records shown) ->
  exists b, printIntelHexFile g3 file 0 = Some (shown, b).
Proof.
  unfold main.
  destruct (analyzeIntelHexFile g1 file file_problem) as [[[c e] r] |];
    [| discriminate].
  destruct ((1 <=? c) && (c <=? 5)); [discriminate |].
  destruct (checkEOF last_line0 EOF_line0 file EOF_problem) as [c' e'].
  destruct (negb (c' =? 0)); [discriminate |].
  change base_address_at_start with 0.
  destruct (printIntelHexFile g3 file 0) as [[s b] |]; [| discriminate].
  intros H. injection H as <-. eauto.
Qed.

(** C8.  The static [base_address] is 0 when the program starts and the
    display pass of [main], the only scan that uses it, starts from that
    value; a call of [displayRecordInfo] changes it only for a record of
    type 0, to the address field of that record; for a record of type 2
    the address shown is base_address + data[0] * 0x1000 + data[1] * 0x10
    and the static is left as it is. *)
Theorem displayRecordInfo_base_address (u : IntelHexRecord_t) (line : string)
    (base_address : Z) (record : IntelHexRecord_t) :
  parse_for_display u line = Some record ->
  base_address_at_start = 0 /\
  (forall g1 g3 l0 e0 file_problem EOF_problem file shown,
     main g1 g3 l0 e0 file_problem EOF_problem file = Some (Records shown) ->
     exists b, printIntelHexFile g3 file 0 = Some (shown, b)) /\
  exists d base',
    displayRecordInfo u line base_address = Some (d, base') /\
    (record_type record = 0 ->
     base' = to_i32 (address record) /\
     (0 <= address record <= 0xFFFF -> base' = address record)) /\
    (record_type record <> 0 -> base' = base_address) /\
    (record_type record = 2 ->
     base' = base_address /\
     d = ExtendedSegmentAddress record (to_u32 base_address)
           (to_u32 (base_address + data record 0%nat * 0x1000
                    + data record 1%nat * 0x10)) /\
     (0 <= base_address <= 0xFFFF ->
      shown_address d =
      Some (base_address + data record 0%nat * 0x1000
            + data record 1%nat * 0x10))).
Proof.
  intros H.
  split; [reflexivity |].
  split; [intros; eapply main_display_pass; eassumption |].
  pose proof (parse_for_display_bytes u line record H 0%nat) as D0.
  pose proof (parse_for_display_bytes u line record H 1%nat) as D1.
  unfold displayRecordInfo. rewrite H.
  destruct (record_type record =? 0) eqn:T0.
  - apply Z.eqb_eq in T0.
    eexists. eexists. split; [reflexivity |].
    split; [| split].
    + intros _. split; [reflexivity |].
      intros R. apply to_i32_small. lia.
    + intros N. contradiction.
    + intros T2. rewrite T2 in T0. discriminate.
  - apply Z.eqb_neq in T0.
    destruct (record_type record =? 2) eqn:T2.
    + eexists. eexists. split; [reflexivity |].
      split; [| split].
      * intros T. contradiction.
      * intros _. reflexivity.
      * intros _. split; [reflexivity |].
        rewrite to_u32_of_i32.
        split; [reflexivity |].
        intros B. cbn [shown_address].
        rewrite to_u32_small by lia. reflexivity.
    + apply Z.eqb_neq in T2.
      destruct (record_type record =? 4);
        (eexists; eexists; split; [reflexivity |]);
        (split; [| split]);
        try (intros T; contradiction); try (intros _; reflexivity).
Qed.

Lemma displayRecordInfo_base_address_witness :
  option_map (fun r => (shown_address (fst r), snd r))
    (displayRecordInfo (filled 7) esa_line 0x0030)
  = Some (Some 0x00012030, 0x0030).
Proof.
  destruct (parse_for_display (filled 7) esa_line) as [record |] eqn:E;
    [| vm_compute in E; discriminate].
  assert (T : record_type record = 2)
    by (vm_compute in E; injection E as <-; reflexivity).
  destruct (displayRecordInfo_base_address (filled 7) esa_line 0x0030
              record E) as (_ & _ & d & b & R & _ & _ & S).
  destruct (S T) as (-> & _ & A).
  rewrite R. cbn [option_map fst snd]. rewrite A.
  - vm_compute in E. injection E as <-. reflexivity.
  - split; vm_compute; discriminate.
Defined.

(** ** The header scan and the uninitialised record *)

(** C5.  The line ":0G000001FF" starts with a colon and its byte count
    field "0G" is not hexadecimal, yet [checkRecord] does not return 2:
    [%2s] takes any two characters that are not white space, [%X] then
    reads the leading "0", and the line is accepted with code 0. *)
Theorem checkRecord_accepts_non_hex_byte_count (u : IntelHexRecord_t) :
  starts_with_colon (":0G000001FF" ++ nl) = true /\
  scan_header (":0G000001FF" ++ nl) = Some ("0G", "0000", "01")%string /\
  checkRecord u (":0G000001FF" ++ nl) = Some 0.
Proof.
  split; [reflexivity |]. split; [reflexivity |].
  vm_compute. reflexivity.
Qed.

(** C9.  On the line ":ZZ00000000" the conversion of "ZZ" fails and
    [record.byte_count] is read as the call found it: [checkRecord]
    returns 0 when it holds 0 and 4 when it holds 7.  The result is not a
    function of the line alone. *)
Theorem checkRecord_reads_uninitialised_byte_count :
  scan_X None "ZZ" = None /\
  checkRecord (filled 0) (":ZZ00000000" ++ nl) = Some 0 /\
  checkRecord (filled 7) (":ZZ00000000" ++ nl) = Some 4.
Proof.
  split; [reflexivity |]. split; vm_compute; reflexivity.
Qed.

(** An accepted type string always converts. *)
Lemma valid_record_type_converts (t : string) :
  valid_record_type t = true -> exists v r, scan_X None t = Some (v, r).
Proof.
  unfold valid_record_type, strcmp_eq.
  rewrite !orb_true_iff, !String.eqb_eq.
  intros [[[[-> | ->] | ->] | ->] | ->]; vm_compute; eauto.
Qed.

Lemma parse_data_agree (line : string) (n : nat) :
  forall m m' i,
    data_convert line i n = true ->
    (forall j, (j < i)%nat -> m j = m' j) ->
    match parse_data line m i n, parse_data line m' i n with
    | Some a, Some b => forall j, (j < i + n)%nat -> a j = b j
    | None, None => True
    | _, _ => False
    end.
Proof.
  induction n as [| n IH]; intros m m' i C H; cbn [parse_data data_convert] in *.
  - intros j Hj. apply H. lia.
  - destruct (at_offset line (9 + Z.of_nat i * 2)) as [p |]; [| exact I].
    destruct (scan_X (Some 2%nat) p) as [[v r] |]; [| discriminate].
    specialize (IH (store32 m i v) (store32 m' i v) (S i) C).
    replace (i + S n)%nat with (S i + n)%nat by lia.
    apply IH. intros j Hj. unfold store32.
    destruct ((i <=? j)%nat && (j <? i + 4)%nat) eqn:E; [reflexivity |].
    apply H.
    apply andb_false_iff in E.
    destruct E as [E | E];
      [apply Nat.leb_gt in E | apply Nat.ltb_ge in E]; lia.
Qed.

Lemma add_data_agree (m m' : nat -> Z) (n : nat) :
  forall c i,
    (forall j, (i <= j < i + n)%nat -> m j = m' j) ->
    add_data m c i n = add_data m' c i n.
Proof.
  induction n as [| n IH]; intros c i H; cbn [add_data].
  - reflexivity.
  - rewrite (H i) by lia. apply IH. intros j Hj. apply H. lia.
Qed.

(** The uninitialised record matters only when a conversion fails: on a
    line whose header strings and data pairs all convert, the result of
    [checkRecord] is the same whatever that record holds. *)
Lemma checkRecord_function_of_line (u u' : IntelHexRecord_t)
    (line : string) :
  all_converted line = true -> checkRecord u line = checkRecord u' line.
Proof.
  unfold all_converted, checkRecord.
  destruct (starts_with_colon line); [| reflexivity]. cbn [negb].
  destruct (scan_header line) as [[[b a] t] |]; [| reflexivity].
  destruct (scan_X None b) as [[vb rb] |] eqn:Eb; [| discriminate].
  destruct (scan_X None a) as [[va ra] |] eqn:Ea; [| discriminate].
  intros C.
  destruct (valid_record_type t) eqn:V; [| reflexivity]. cbn [negb].
  destruct (valid_record_type_converts t V) as (vt & rt & Et).
  cbv zeta.
  assert (F : forall w, parse_fields w b a t =
                        mkRecord vb va vt (data (uninitialised w))
                          (checksum (uninitialised w))).
  { intros w. unfold parse_fields, scan_field. rewrite Eb, Ea, Et.
    reflexivity. }
  rewrite (F u), (F u'). cbn [byte_count data].
  set (d := data (uninitialised u)). set (d' := data (uninitialised u')).
  set (k := checksum (uninitialised u)). set (k' := checksum (uninitialised u')).
  destruct (to_u32 (data_byte line) =? vb); [| reflexivity]. cbn [negb].
  pose proof (parse_data_agree line (Z.to_nat vb) d d' 0%nat C) as A.
  destruct (parse_data line d 0 (Z.to_nat vb)) as [m |];
    destruct (parse_data line d' 0 (Z.to_nat vb)) as [m' |];
    try reflexivity.
  - destruct (checksum_record line) as [cs |]; [| reflexivity].
    assert (E : calculated_checksum (set_data (mkRecord vb va vt d k) m)
                = calculated_checksum (set_data (mkRecord vb va vt d' k') m')).
    { unfold calculated_checksum.
      cbn [set_data byte_count address record_type data].
      rewrite (add_data_agree m m').
      - reflexivity.
      - intros j Hj. apply A; [intros i Hi; lia | lia]. }
    rewrite E. reflexivity.
  - exfalso. apply A. intros i Hi. lia.
  - exfalso. apply A. intros i Hi. lia.
Qed.

(** * Further properties *)

(** ** Hexadecimal digits under the conversions *)

Lemma hex_digit_facts (c : ascii) (d : Z) :
  hex_digit c = Some d ->
  0 <= d < 16 /\ isspace c = false /\
  is_char c 45 = false /\ is_char c 43 = false /\
  is_char c 120 = false /\ is_char c 88 = false /\ is_char c 58 = false.
Proof.
  unfold hex_digit, isspace, is_char. cbv zeta.
  set (n := code c). intros Hd.
  assert (R : (48 <= n <= 57 \/ 65 <= n <= 70 \/ 97 <= n <= 102) /\
              0 <= d < 16).
  { revert Hd.
    destruct (Z.leb_spec 48 n); destruct (Z.leb_spec n 57);
      destruct (Z.leb_spec 65 n); destruct (Z.leb_spec n 70);
      destruct (Z.leb_spec 97 n); destruct (Z.leb_spec n 102);
      cbn [andb]; intros Hd; try discriminate; injection Hd as <-; lia. }
  destruct R as [R D].
  split; [exact D |].
  split.
  { apply orb_false_iff. split; [apply Z.eqb_neq; lia |].
    apply andb_false_iff.
    destruct (Z.leb_spec n 13); [lia | auto]. }
  repeat split; apply Z.eqb_neq; lia.
Qed.

Lemma take_hex_digits (w : nat) :
  forall s ds r, take_hex w s = (ds, r) -> Forall (fun d => 0 <= d < 16) ds.
Proof.
  induction w as [| w IH]; intros s ds r H; cbn [take_hex] in H.
  - injection H as <- _. constructor.
  - destruct s as [| c s']; [injection H as <- _; constructor |].
    destruct (hex_digit c) as [d |] eqn:E;
      [| injection H as <- _; constructor].
    destruct (take_hex w s') as [ds' r'] eqn:T.
    injection H as <- _.
    constructor; [apply (hex_digit_facts c d E) | exact (IH _ _ _ T)].
Qed.

Lemma hex_value_bound (ds : list Z) :
  Forall (fun d => 0 <= d < 16) ds ->
  forall a, 0 <= a ->
    0 <= fold_left (fun x d => x * 16 + d) ds a
    < (a + 1) * 16 ^ Z.of_nat (List.length ds).
Proof.
  induction 1 as [| d ds Hd Hds IH]; intros a Ha; cbn [fold_left List.length].
  - change (16 ^ Z.of_nat 0) with 1. lia.
  - specialize (IH (a * 16 + d) ltac:(lia)).
    rewrite Nat2Z.inj_succ, Z.pow_succ_r by lia.
    assert (0 < 16 ^ Z.of_nat (List.length ds)) by (apply Z.pow_pos_nonneg; lia).
    nia.
Qed.

Lemma hex_prefix_range (n : nat) (s : string) (v : Z) (r : string) :
  hex_prefix n s = Some (v, r) -> 0 <= v < 16 ^ Z.of_nat n.
Proof.
  unfold hex_prefix. destruct (take_hex n s) as [ds r'] eqn:T.
  destruct (List.length ds =? n)%nat eqn:L; [| discriminate].
  apply Nat.eqb_eq in L. intros H. injection H as <- _.
  pose proof (hex_value_bound ds (take_hex_digits _ _ _ _ T) 0 ltac:(lia)) as B.
  rewrite L in B. unfold hex_value. lia.
Qed.

(** On [n] hexadecimal digits, [%0nX] reads exactly these digits. *)
Lemma scan_X_hex_prefix (n : nat) (s : string) (v : Z) (r : string) :
  (1 <= n <= 8)%nat ->
  hex_prefix n s = Some (v, r) ->
  scan_X (Some n) s = Some (v, r).
Proof.
  intros Hn H. pose proof (hex_prefix_range _ _ _ _ H) as R.
  assert (P : 16 ^ Z.of_nat n <= 2 ^ 32).
  { change (2 ^ 32) with (16 ^ 8). apply Z.pow_le_mono_r; lia. }
  unfold hex_prefix in H.
  destruct (take_hex n s) as [ds r'] eqn:T.
  destruct (List.length ds =? n)%nat eqn:L; [| discriminate].
  apply Nat.eqb_eq in L. injection H as <- <-.
  destruct n as [| n]; [lia |].
  destruct s as [| c s']; [cbn in T; injection T as <- _; discriminate |].
  cbn [take_hex] in T.
  destruct (hex_digit c) as [d |] eqn:Ec;
    [| injection T as <- _; discriminate].
  destruct (hex_digit_facts c d Ec) as (_ & Sp & M & Pl & _).
  unfold scan_X. cbn [skip_ws]. rewrite Sp, M, Pl.
  assert (Q : match n, s' with
              | S w', String x r0 =>
                  if is_char c 48 && (is_char x 120 || is_char x 88)
                  then (true, r0, w') else (false, String c s', S n)
              | _, _ => (false, String c s', S n)
              end = (false, String c s', S n)).
  { destruct n as [| n']; [reflexivity |].
    destruct s' as [| x r0]; [reflexivity |].
    cbn [take_hex] in T.
    destruct (hex_digit x) as [dx |] eqn:Ex.
    - destruct (hex_digit_facts x dx Ex) as (_ & _ & _ & _ & X1 & X2 & _).
      rewrite X1, X2, andb_false_r. reflexivity.
    - injection T as <- _. cbn in L. lia. }
  change (match S n, String c s' with
          | S (S w'), String c0 (String x r0) =>
              if is_char c0 48 && (is_char x 120 || is_char x 88)
              then (true, r0, w') else (false, String c s', S n)
          | _, _ => (false, String c s', S n)
          end)
    with (match n, s' with
          | S w', String x r0 =>
              if is_char c 48 && (is_char x 120 || is_char x 88)
              then (true, r0, w') else (false, String c s', S n)
          | _, _ => (false, String c s', S n)
          end).
  rewrite Q. cbn [take_hex]. rewrite Ec.
  destruct (take_hex n s') as [ds' r''] eqn:T'.
  injection T as <- <-.
  rewrite to_u32_small by lia.
  reflexivity.
Qed.

Lemma take_nonws_hex (n : nat) :
  forall s ds r,
    take_hex n s = (ds, r) -> List.length ds = n ->
    exists tok,
      take_nonws n s = (tok, r) /\ String.length tok = n /\
      take_hex n tok = (ds, EmptyString).
Proof.
  induction n as [| n IH]; intros s ds r T L.
  - cbn in T. injection T as <- <-. exists EmptyString. auto.
  - destruct s as [| c s']; [cbn in T; injection T as <- _; discriminate |].
    cbn [take_hex] in T.
    destruct (hex_digit c) as [d |] eqn:Ec;
      [| injection T as <- _; discriminate].
    destruct (take_hex n s') as [ds' r'] eqn:T'.
    injection T as <- <-. cbn [List.length] in L.
    destruct (IH s' ds' r' T' ltac:(lia)) as (tok & N & Ln & H).
    destruct (hex_digit_facts c d Ec) as (_ & Sp & _).
    exists (String c tok). cbn [take_nonws take_hex String.length].
    rewrite Sp, N, Ec, H, Ln. auto.
Qed.

(** On [n] hexadecimal digits, [%ns] takes these digits and [%X] on the
    string it gives reads their value. *)
Lemma scan_s_hex_prefix (n : nat) (s : string) (v : Z) (r : string) :
  (1 <= n <= 8)%nat ->
  hex_prefix n s = Some (v, r) ->
  exists tok,
    scan_s n s = Some (tok, r) /\ scan_X None tok = Some (v, EmptyString).
Proof.
  intros Hn H. pose proof H as H'. unfold hex_prefix in H.
  destruct (take_hex n s) as [ds r'] eqn:T.
  destruct (List.length ds =? n)%nat eqn:L; [| discriminate].
  apply Nat.eqb_eq in L. injection H as <- <-.
  destruct (take_nonws_hex n s ds r' T L) as (tok & N & Ln & Ht).
  exists tok.
  assert (K : forall x, (1 <= String.length x)%nat ->
                        (exists y z, take_hex n x = (y, z) /\
                                     List.length y = n) ->
                        skip_ws x = x).
  { intros x Hx (y & z & Hy & Ly).
    destruct x as [| c x']; [reflexivity |].
    destruct n as [| n']; [lia |].
    cbn [take_hex] in Hy.
    destruct (hex_digit c) as [d |] eqn:Ec;
      [| injection Hy as <- _; cbn in Ly; lia].
    destruct (hex_digit_facts c d Ec) as (_ & Sp & _).
    cbn [skip_ws]. rewrite Sp. reflexivity. }
  split.
  - unfold scan_s. rewrite (K s).
    + rewrite N. destruct tok; [cbn in Ln; lia | reflexivity].
    + destruct s; [| cbn; lia].
      destruct n; [lia |]. cbn in T. injection T as <- _. cbn in L. lia.
    + eauto.
  - assert (E : scan_X None tok = scan_X (Some n) tok).
    { unfold scan_X. rewrite (K tok) by (try lia; eauto). rewrite Ln.
      reflexivity. }
    rewrite E. apply scan_X_hex_prefix; [exact Hn |].
    unfold hex_prefix. rewrite Ht, L, Nat.eqb_refl. reflexivity.
Qed.

(** Both header scans on a line in the fixed layout. *)
Lemma fixed_header_scans (u u' : IntelHexRecord_t) (line : string)
    (b a t : Z) :
  fixed_header line = Some (b, a, t) ->
  checked_fields u line = Some (b, a, t) /\
  displayed_fields u' line = (b, a, t) /\
  0 <= b <= 0xFF /\ 0 <= a <= 0xFFFF /\ 0 <= t <= 0xFF.
Proof.
  unfold fixed_header, checked_fields, displayed_fields, scan_header,
    scan_header_X.
  destruct line as [| c rest]; [discriminate |].
  destruct (is_char c 58); [| discriminate].
  destruct (hex_prefix 2 rest) as [[vb r1] |] eqn:Hb; [| discriminate].
  destruct (hex_prefix 4 r1) as [[va r2] |] eqn:Ha; [| discriminate].
  destruct (hex_prefix 2 r2) as [[vt r3] |] eqn:Ht; [| discriminate].
  intros H. injection H as <- <- <-.
  destruct (scan_s_hex_prefix 2 rest vb r1 ltac:(lia) Hb) as (tb & Sb & Xb).
  destruct (scan_s_hex_prefix 4 r1 va r2 ltac:(lia) Ha) as (ta & Sa & Xa).
  destruct (scan_s_hex_prefix 2 r2 vt r3 ltac:(lia) Ht) as (tt & St & Xt).
  rewrite Sb, Sa, St.
  rewrite (scan_X_hex_prefix 2 rest vb r1 ltac:(lia) Hb).
  rewrite (scan_X_hex_prefix 4 r1 va r2 ltac:(lia) Ha).
  rewrite (scan_X_hex_prefix 2 r2 vt r3 ltac:(lia) Ht).
  unfold parse_fields, scan_field. rewrite Xb, Xa, Xt. cbv zeta.
  cbn [byte_count address record_type set_byte_count set_address
       set_record_type].
  pose proof (hex_prefix_range _ _ _ _ Hb) as Rb.
  pose proof (hex_prefix_range _ _ _ _ Ha) as Ra.
  pose proof (hex_prefix_range _ _ _ _ Ht) as Rt.
  change (16 ^ Z.of_nat 2) with 256 in Rb, Rt.
  change (16 ^ Z.of_nat 4) with 65536 in Ra.
  repeat split; lia.
Qed.

(** X1.  On a line with a colon and eight hexadecimal digits in its first
    nine columns, [checkRecord] and [displayRecordInfo], which scan the
    header in different ways, hold the same byte count, address and type:
    the values of the digits in columns 2-3, 4-7 and 8-9, whatever the
    record held before. *)
Theorem header_scans_agree (u u' : IntelHexRecord_t) (line : string)
    (b a t : Z) :
  fixed_header line = Some (b, a, t) ->
  checked_fields u line = Some (b, a, t) /\
  displayed_fields u' line = (b, a, t) /\
  checked_fields u line = Some (displayed_fields u' line) /\
  0 <= b <= 0xFF /\ 0 <= a <= 0xFFFF /\ 0 <= t <= 0xFF.
Proof.
  intros F.
  destruct (fixed_header_scans u u' line b a t F) as (Hc & Hd & R).
  split; [exact Hc |]. split; [exact Hd |].
  split; [rewrite Hc, Hd; reflexivity | exact R].
Qed.

Lemma header_scans_agree_witness :
  checked_fields (filled 77) data_line = Some (3, 0x30, 0) /\
  displayed_fields (filled 9) data_line = (3, 0x30, 0).
Proof.
  destruct (header_scans_agree (filled 77) (filled 9) data_line 3 0x30 0
              eq_refl) as (H1 & H2 & _ & _).
  split; assumption.
Defined.

(** ** The data bytes and the checksum field *)

Lemma parse_data_keeps_earlier (line : string) (n : nat) :
  forall m i m',
    parse_data line m i n = Some m' ->
    forall j, (j < i)%nat -> m' j = m j.
Proof.
  induction n as [| n IH]; intros m i m' H j Hj; cbn [parse_data] in H.
  - injection H as <-. reflexivity.
  - destruct (at_offset line (9 + Z.of_nat i * 2)) as [p |]; [| discriminate].
    rewrite (IH _ _ _ H j ltac:(lia)).
    destruct (scan_X (Some 2%nat) p) as [[v r] |]; [| reflexivity].
    unfold store32.
    replace (i <=? j)%nat with false by (symmetry; apply Nat.leb_gt; lia).
    reflexivity.
Qed.

(** X2.  After the data loop, byte [i] of the record is the value of the
    two hexadecimal digits in columns 10+2i and 11+2i of the line: the
    four-byte store of a later round does not reach back to it. *)
Theorem parse_data_digit_pairs (line : string) (n : nat) :
  forall m i0 m',
    parse_data line m i0 n = Some m' ->
    forall i p v r,
      (i0 <= i < i0 + n)%nat ->
      at_offset line (9 + Z.of_nat i * 2) = Some p ->
      hex_prefix 2 p = Some (v, r) ->
      m' i = v.
Proof.
  induction n as [| n IH]; intros m i0 m' H i p v r Hi Hp Hv.
  - lia.
  - cbn [parse_data] in H.
    destruct (at_offset line (9 + Z.of_nat i0 * 2)) as [p0 |] eqn:E0;
      [| discriminate].
    destruct (Nat.eq_dec i i0) as [-> | Hne].
    + rewrite E0 in Hp. injection Hp as <-.
      rewrite (scan_X_hex_prefix 2 p0 v r ltac:(lia) Hv) in H.
      rewrite (parse_data_keeps_earlier _ _ _ _ _ H i0 ltac:(lia)).
      unfold store32.
      replace (i0 <=? i0)%nat with true by (symmetry; apply Nat.leb_le; lia).
      replace (i0 <? i0 + 4)%nat with true
        by (symmetry; apply Nat.ltb_lt; lia).
      cbn [andb]. rewrite Nat.sub_diag.
      change (2 ^ (8 * Z.of_nat 0)) with 1. rewrite Z.div_1_r.
      pose proof (hex_prefix_range _ _ _ _ Hv) as R.
      change (16 ^ Z.of_nat 2) with 256 in R.
      unfold to_u8. apply Z.mod_small. change (2 ^ 8) with 256. lia.
    + apply (IH _ _ _ H i p v r); [lia | exact Hp | exact Hv].
Qed.

Lemma parse_data_digit_pairs_witness :
  exists m',
    parse_data data_line (fun _ => 9) 0 3 = Some m' /\
    m' 0%nat = 0x02 /\ m' 1%nat = 0x33 /\ m' 2%nat = 0x7A.
Proof.
  destruct (parse_data data_line (fun _ => 9) 0 3) as [m' |] eqn:E;
    [| vm_compute in E; discriminate].
  exists m'. split; [reflexivity |].
  repeat split.
  - eapply (parse_data_digit_pairs data_line 3 _ 0%nat m' E 0%nat);
      [lia | vm_compute; reflexivity | vm_compute; reflexivity].
  - eapply (parse_data_digit_pairs data_line 3 _ 0%nat m' E 1%nat);
      [lia | vm_compute; reflexivity | vm_compute; reflexivity].
  - eapply (parse_data_digit_pairs data_line 3 _ 0%nat m' E 2%nat);
      [lia | vm_compute; reflexivity | vm_compute; reflexivity].
Defined.

Lemma drop_app (s p : string) : drop (String.length s) (s ++ p) = Some p.
Proof. induction s as [| c s IH]; [reflexivity | exact IH]. Qed.

Lemma strlen_app (s p : string) : strlen (s ++ p) = strlen s + strlen p.
Proof.
  unfold strlen. induction s as [| c s IH].
  - cbn. lia.
  - cbn [append String.length]. rewrite !Nat2Z.inj_succ. lia.
Qed.

(** X3.  The checksum [checkRecord] compares with is the value of the two
    hexadecimal digits that stand before the last character of the line,
    whatever that last character is: with a terminator these are the last
    two digits of the record, without one they are not. *)
Theorem checksum_record_position (s p : string) (v : Z) (r : string) :
  String.length p = 3%nat ->
  hex_prefix 2 p = Some (v, r) ->
  checksum_record (s ++ p) = Some v.
Proof.
  intros L H. unfold checksum_record.
  rewrite strlen_app. unfold strlen at 2. rewrite L.
  replace (strlen s + Z.of_nat 3 - 3) with (strlen s) by lia.
  unfold at_offset.
  destruct (strlen s <? 0) eqn:E;
    [apply Z.ltb_lt in E; pose proof (strlen_nonneg s); lia |].
  unfold strlen. rewrite Nat2Z.id, drop_app.
  rewrite (scan_X_hex_prefix 2 p v r ltac:(lia) H).
  pose proof (hex_prefix_range _ _ _ _ H) as R.
  change (16 ^ Z.of_nat 2) with 256 in R.
  rewrite to_i32_small by lia. reflexivity.
Qed.

Lemma checksum_record_position_witness :
  checksum_record (":0300300002337A" ++ "1E" ++ nl) = Some 0x1E /\
  checksum_record (":0300300002337" ++ "A1E") = Some 0xA1.
Proof.
  split.
  - apply (checksum_record_position ":0300300002337A" ("1E" ++ nl) 0x1E nl);
      reflexivity.
  - apply (checksum_record_position ":0300300002337" "A1E" 0xA1 "E");
      reflexivity.
Defined.

(** ** Short lines, accepted lengths and line terminators *)

(** X4.  A line of fewer than eleven characters is never accepted: with a
    byte count below 2^31 it gets one of the codes 1 to 4, the unsigned
    wrap of [strlen(line) - 11] making the count check fail. *)
Theorem checkRecord_short_line (u : IntelHexRecord_t) (line : string) :
  strlen line < 11 ->
  declared_byte_count u line < 2 ^ 31 ->
  exists c, checkRecord u line = Some c /\ 1 <= c <= 4.
Proof.
  intros Hs Hbc.
  pose proof (strlen_nonneg line) as H0.
  destruct (checkRecord_cases u line) as (C1 & C2 & C3 & C4 & _).
  destruct (starts_with_colon line) eqn:E1;
    [| exists 1; split; [apply C1; reflexivity | lia]].
  destruct (header_scanned line) eqn:E2;
    [| exists 2; split; [apply C2; auto | lia]].
  destruct (type_accepted line) eqn:E3;
    [| exists 3; split; [apply C3; auto | lia]].
  exists 4. split; [| lia]. apply C4. repeat split; auto.
  apply count_matches_div; [lia | exact Hbc |].
  pose proof (declared_byte_count_range u line) as R.
  quotient_facts line. lia.
Qed.

Lemma checkRecord_short_line_witness :
  exists c, checkRecord (filled 0) ":00000001F" = Some c /\ 1 <= c <= 4.
Proof.
  apply checkRecord_short_line.
  - vm_compute. reflexivity.
  - vm_compute. reflexivity.
Defined.

(** With code 0 or 5 the quotient equals the byte count. *)
Lemma passed_count_quotient (u : IntelHexRecord_t) (line : string) (c : Z) :
  checkRecord u line = Some c ->
  c = 0 \/ c = 5 ->
  strlen line < 2 ^ 32 ->
  declared_byte_count u line < 2 ^ 31 ->
  (strlen line - 11) / 2 = declared_byte_count u line.
Proof.
  intros H Hc Hlen Hbc.
  destruct (checkRecord_cases u line) as (_ & _ & _ & _ & C5 & C0 & S & _).
  assert (M : count_matches u line = true).
  { destruct Hc as [-> | ->].
    - apply C0 in H. destruct H as (r & cs & Hs & _).
      apply (S r cs Hs).
    - apply C5 in H. destruct H as (r & cs & Hs & _).
      apply (S r cs Hs). }
  pose proof (count_matches_div u line Hlen Hbc) as D.
  destruct (Z.eq_dec ((strlen line - 11) / 2) (declared_byte_count u line))
    as [E | N]; [exact E |].
  apply D in N. congruence.
Qed.

(** X5.  A line that passes the byte count check (code 0 or 5) is 11 or
    12 characters longer than twice its byte count: the record with or
    without one more character, not more. *)
Theorem checkRecord_accepted_length (u : IntelHexRecord_t) (line : string)
    (c : Z) :
  checkRecord u line = Some c ->
  c = 0 \/ c = 5 ->
  strlen line < 2 ^ 32 ->
  declared_byte_count u line < 2 ^ 31 ->
  strlen line = 11 + 2 * declared_byte_count u line \/
  strlen line = 12 + 2 * declared_byte_count u line.
Proof.
  intros H Hc Hlen Hbc.
  pose proof (passed_count_quotient u line c H Hc Hlen Hbc) as E.
  quotient_facts line. lia.
Qed.

Lemma checkRecord_accepted_length_witness :
  strlen data_line = 12 + 2 * declared_byte_count (filled 77) data_line.
Proof.
  destruct (checkRecord_accepted_length (filled 77) data_line 0) as [H | H].
  - vm_compute. reflexivity.
  - left. reflexivity.
  - vm_compute. reflexivity.
  - vm_compute. reflexivity.
  - vm_compute in H. discriminate.
  - exact H.
Defined.

Lemma isspace_not_colon (c : ascii) : isspace c = true -> is_char c 58 = false.
Proof.
  unfold isspace, is_char. set (n := code c).
  destruct (Z.eqb_spec n 32); destruct (Z.leb_spec 9 n);
    destruct (Z.leb_spec n 13); cbn; intros Hsp; try discriminate;
    apply Z.eqb_neq; lia.
Qed.

Lemma skip_ws_app (s x : string) :
  all_space x = true ->
  skip_ws (s ++ x) =
  match skip_ws s with
  | EmptyString => EmptyString
  | t => (t ++ x)%string
  end.
Proof.
  intros Hx. induction s as [| c s IH]; cbn [append skip_ws].
  - induction x as [| c x IHx]; [reflexivity |].
    cbn [all_space] in Hx. apply andb_true_iff in Hx as [Hc Hx].
    cbn [skip_ws]. rewrite Hc. apply IHx. exact Hx.
  - destruct (isspace c); [exact IH | reflexivity].
Qed.

Lemma take_nonws_app (w : nat) :
  forall s x,
    all_space x = true ->
    take_nonws w (s ++ x) =
    let (t, r) := take_nonws w s in (t, (r ++ x)%string).
Proof.
  induction w as [| w IH]; intros s x Hx.
  - reflexivity.
  - destruct s as [| c s]; cbn [append take_nonws].
    + destruct x as [| c x]; [reflexivity |].
      cbn [all_space] in Hx. apply andb_true_iff in Hx as [Hc _].
      cbn [take_nonws]. rewrite Hc. reflexivity.
    + destruct (isspace c); [reflexivity |].
      rewrite (IH s x Hx). destruct (take_nonws w s). reflexivity.
Qed.

Lemma scan_s_app (w : nat) (s x : string) :
  all_space x = true ->
  scan_s w (s ++ x) =
  match scan_s w s with
  | Some (t, r) => Some (t, (r ++ x)%string)
  | None => None
  end.
Proof.
  intros Hx. unfold scan_s. rewrite (skip_ws_app s x Hx).
  destruct (skip_ws s) as [| c s'] eqn:E.
  - destruct w; reflexivity.
  - rewrite (take_nonws_app w (String c s') x Hx).
    destruct (take_nonws w (String c s')) as [t r].
    destruct t; reflexivity.
Qed.

Lemma scan_header_app (line x : string) :
  all_space x = true -> scan_header (line ++ x) = scan_header line.
Proof.
  intros Hx. destruct line as [| c rest].
  - cbn [append scan_header]. destruct x as [| c x]; [reflexivity |].
    cbn [all_space] in Hx. apply andb_true_iff in Hx as [Hc _].
    cbn [scan_header]. rewrite (isspace_not_colon c Hc). reflexivity.
  - cbn [append scan_header]. destruct (is_char c 58); [| reflexivity].
    rewrite (scan_s_app 2 rest x Hx).
    destruct (scan_s 2 rest) as [[tb r1] |]; [| reflexivity].
    rewrite (scan_s_app 4 r1 x Hx).
    destruct (scan_s 4 r1) as [[ta r2] |]; [| reflexivity].
    rewrite (scan_s_app 2 r2 x Hx).
    destruct (scan_s 2 r2) as [[tt r3] |]; reflexivity.
Qed.

Lemma starts_with_colon_app (line x : string) :
  all_space x = true ->
  starts_with_colon (line ++ x) = starts_with_colon line.
Proof.
  intros Hx. destruct line as [| c rest]; [| reflexivity].
  cbn [append starts_with_colon]. destruct x as [| c x]; [reflexivity |].
  cbn [all_space] in Hx. apply andb_true_iff in Hx as [Hc _].
  cbn [starts_with_colon]. exact (isspace_not_colon c Hc).
Qed.

(** X6.  White space at the end of a line does not change the outcome of
    the first three checks: a line gets code 1, 2 or 3 with it exactly
    when it gets that code without it, and the byte count read from the
    header is the same. *)
Theorem checkRecord_trailing_space (u : IntelHexRecord_t) (line x : string) :
  all_space x = true ->
  (checkRecord u (line ++ x) = Some 1 <-> checkRecord u line = Some 1) /\
  (checkRecord u (line ++ x) = Some 2 <-> checkRecord u line = Some 2) /\
  (checkRecord u (line ++ x) = Some 3 <-> checkRecord u line = Some 3) /\
  declared_byte_count u (line ++ x) = declared_byte_count u line.
Proof.
  intros Hx.
  destruct (checkRecord_cases u line) as (A1 & A2 & A3 & _).
  destruct (checkRecord_cases u (line ++ x)) as (B1 & B2 & B3 & _).
  rewrite A1, A2, A3, B1, B2, B3.
  unfold header_scanned, type_accepted, declared_byte_count.
  rewrite (scan_header_app line x Hx), (starts_with_colon_app line x Hx).
  split; [tauto |]. split; [tauto |]. split; [tauto | reflexivity].
Qed.

Lemma checkRecord_trailing_space_witness :
  checkRecord (filled 0) ("0300" ++ cr ++ nl) = Some 1.
Proof.
  apply (proj1 (checkRecord_trailing_space (filled 0) "0300" (cr ++ nl)
                  eq_refl)).
  vm_compute. reflexivity.
Defined.

(** X7.  A record that passes the byte count check when it ends with a
    newline gets code 4 when it ends with carriage return and newline:
    the second terminator character is counted as half a data byte. *)
Theorem checkRecord_crlf (u : IntelHexRecord_t) (body : string) (c : Z) :
  checkRecord u (body ++ nl) = Some c ->
  c = 0 \/ c = 5 ->
  Z.odd (strlen body) = true ->
  strlen body < 2 ^ 32 - 2 ->
  declared_byte_count u (body ++ nl) < 2 ^ 31 ->
  checkRecord u (body ++ cr ++ nl) = Some 4.
Proof.
  intros H Hc Hodd Hlen Hbc.
  assert (Sn : all_space nl = true) by reflexivity.
  assert (Sc : all_space (cr ++ nl) = true) by reflexivity.
  assert (L1 : strlen (body ++ nl) = strlen body + 1)
    by (rewrite strlen_app; reflexivity).
  assert (L2 : strlen (body ++ cr ++ nl) = strlen body + 2)
    by (rewrite strlen_app; reflexivity).
  destruct (checkRecord_cases u (body ++ nl))
    as (_ & _ & _ & _ & C5 & C0 & S & _).
  assert (P : starts_with_colon (body ++ nl) = true /\
              header_scanned (body ++ nl) = true /\
              type_accepted (body ++ nl) = true /\
              count_matches u (body ++ nl) = true).
  { destruct Hc as [-> | ->].
    - apply C0 in H. destruct H as (r & cs & Hs & _). apply (S r cs Hs).
    - apply C5 in H. destruct H as (r & cs & Hs & _). apply (S r cs Hs). }
  destruct P as (P1 & P2 & P3 & P4).
  assert (D : declared_byte_count u (body ++ cr ++ nl)
              = declared_byte_count u (body ++ nl)).
  { unfold declared_byte_count.
    rewrite (scan_header_app body _ Sc), (scan_header_app body _ Sn).
    reflexivity. }
  destruct (checkRecord_cases u (body ++ cr ++ nl)) as (_ & _ & _ & C4 & _).
  apply C4.
  unfold header_scanned, type_accepted in *.
  rewrite (scan_header_app body _ Sc), (starts_with_colon_app body _ Sc).
  rewrite (scan_header_app body _ Sn) in P2, P3.
  rewrite (starts_with_colon_app body _ Sn) in P1.
  repeat split; auto.
  apply count_matches_div; [lia | rewrite D; exact Hbc |].
  rewrite D.
  pose proof (count_matches_div u (body ++ nl) ltac:(lia) Hbc) as Q.
  assert (E : (strlen (body ++ nl) - 11) / 2
              = declared_byte_count u (body ++ nl)).
  { destruct (Z.eq_dec ((strlen (body ++ nl) - 11) / 2)
                (declared_byte_count u (body ++ nl))) as [E | N];
      [exact E |].
    apply Q in N. congruence. }
  rewrite <- E, L1, L2.
  apply Z.odd_spec in Hodd. destruct Hodd as [j Hj].
  pose proof (Z.div_mod (strlen body + 1 - 11) 2 ltac:(lia)) as B1.
  pose proof (Z.mod_pos_bound (strlen body + 1 - 11) 2 ltac:(lia)) as M1.
  pose proof (Z.div_mod (strlen body + 2 - 11) 2 ltac:(lia)) as B2.
  pose proof (Z.mod_pos_bound (strlen body + 2 - 11) 2 ltac:(lia)) as M2.
  lia.
Qed.

Lemma checkRecord_crlf_witness :
  checkRecord (filled 0) (":0300300002337A1E" ++ cr ++ nl) = Some 4.
Proof.
  apply (checkRecord_crlf (filled 0) ":0300300002337A1E" 0).
  - vm_compute. reflexivity.
  - left. reflexivity.
  - reflexivity.
  - vm_compute. reflexivity.
  - vm_compute. reflexivity.
Defined.

(** ** From validation to display *)

Lemma parse_for_display_fields (u : IntelHexRecord_t) (line : string)
    (record : IntelHexRecord_t) :
  parse_for_display u line = Some record ->
  (byte_count record, address record, record_type record)
  = displayed_fields u line.
Proof.
  unfold parse_for_display, displayed_fields. cbv zeta.
  destruct (at_offset line (strlen line - 3)) as [p |]; [| discriminate].
  destruct (parse_data _ _ _ _) as [m |]; [| discriminate].
  intros H. injection H as <-.
  unfold scan_field. destruct (scan_X (Some 2%nat) p) as [[v r] |];
    reflexivity.
Qed.

Lemma accepted_type_values (t : string) (v : Z) (r : string) :
  valid_record_type t = true -> scan_X None t = Some (v, r) ->
  v = 0 \/ v = 1 \/ v = 2 \/ v = 4 \/ v = 5.
Proof.
  unfold valid_record_type, strcmp_eq.
  rewrite !orb_true_iff, !String.eqb_eq.
  intros [[[[-> | ->] | ->] | ->] | ->] H; vm_compute in H;
    injection H as <- _; auto.
Qed.

(** [displayRecordInfo] returns whenever its parse stays inside the line. *)
Lemma displayRecordInfo_defined (u : IntelHexRecord_t) (line : string)
    (base_address : Z) (record : IntelHexRecord_t) :
  parse_for_display u line = Some record ->
  exists d base', displayRecordInfo u line base_address = Some (d, base').
Proof.
  intros P. unfold displayRecordInfo. rewrite P.
  destruct (record_type record =? 0); [eauto |].
  destruct (record_type record =? 2); [eauto |].
  destruct (record_type record =? 4); eauto.
Qed.

(** The parse of [displayRecordInfo] on a line in the fixed layout that
    [checkRecord] accepts. *)
Lemma accepted_line_parse (u u' : IntelHexRecord_t) (line : string)
    (b a t : Z) :
  fixed_header line = Some (b, a, t) ->
  checkRecord u line = Some 0 ->
  strlen line < 2 ^ 32 ->
  exists record,
    parse_for_display u' line = Some record /\
    byte_count record = b /\ address record = a /\ record_type record = t.
Proof.
  intros F H Hlen.
  destruct (fixed_header_scans u u' line b a t F) as (Hc & Hd & Rb & Ra & Rt).
  assert (D : declared_byte_count u line = b).
  { unfold declared_byte_count. unfold checked_fields in Hc.
    destruct (scan_header line) as [[[bs as_] ts] |]; [| discriminate].
    cbv zeta in Hc. injection Hc as -> _ _. reflexivity. }
  pose proof (passed_count_quotient u line 0 H (or_introl eq_refl)
                Hlen ltac:(rewrite D; lia)) as L.
  rewrite D in L.
  assert (B : byte_count (scan_header_X line (uninitialised u')) = b).
  { unfold displayed_fields in Hd. cbv zeta in Hd.
    injection Hd as -> _ _. reflexivity. }
  destruct (parse_for_display_defined u' line) as [record P].
  - quotient_facts line. lia.
  - rewrite B. quotient_facts line. lia.
  - pose proof (parse_for_display_fields u' line record P) as E.
    rewrite Hd in E. injection E as Eb Ea Et.
    exists record. auto.
Qed.

(** X8.  A line in the fixed layout that [checkRecord] accepts can be
    displayed: [displayRecordInfo] stays inside the line, holds the byte
    count, address and type of the header digits, the type is one of
    0, 1, 2, 4, 5, and a record of type 1 or 5 is shown as an End-Of-File
    record with the static left as it is. *)
Theorem accepted_line_is_displayed (u u' : IntelHexRecord_t) (line : string)
    (b a t base_address : Z) :
  fixed_header line = Some (b, a, t) ->
  checkRecord u line = Some 0 ->
  strlen line < 2 ^ 32 ->
  exists record d base',
    parse_for_display u' line = Some record /\
    byte_count record = b /\ address record = a /\ record_type record = t /\
    displayRecordInfo u' line base_address = Some (d, base') /\
    (t = 0 \/ t = 1 \/ t = 2 \/ t = 4 \/ t = 5) /\
    (t = 1 \/ t = 5 -> d = EndOfFile /\ base' = base_address).
Proof.
  intros F H Hlen.
  destruct (fixed_header_scans u u' line b a t F) as (Hc & _).
  assert (T : t = 0 \/ t = 1 \/ t = 2 \/ t = 4 \/ t = 5).
  { destruct (checkRecord_cases u line) as (_ & _ & _ & _ & _ & C0 & S & _).
    apply C0 in H as H'. destruct H' as (r & cs & Hs & _).
    destruct (S r cs Hs) as (_ & _ & Ht & _).
    unfold type_accepted in Ht. unfold checked_fields in Hc.
    destruct (scan_header line) as [[[bs as_] ts] |]; [| discriminate].
    cbv zeta in Hc. injection Hc as _ _ Hty.
    unfold parse_fields, scan_field in Hty.
    destruct (valid_record_type_converts ts Ht) as (v & rr & Ev).
    rewrite Ev in Hty.
    destruct (scan_X None bs) as [[? ?] |];
      destruct (scan_X None as_) as [[? ?] |];
      cbn in Hty; subst v;
      exact (accepted_type_values ts t rr Ht Ev). }
  destruct (accepted_line_parse u u' line b a t F H Hlen)
    as (record & P & Eb & Ea & Et).
  unfold displayRecordInfo. rewrite P, Et.
  destruct T as [-> | [-> | [-> | [-> | ->]]]]; cbn [Z.eqb Pos.eqb];
    eexists; eexists; eexists;
    (split; [reflexivity |]);
    (split; [exact Eb |]); (split; [exact Ea |]);
    (split; [first [exact Et | reflexivity] |]);
    (split; [reflexivity |]);
    (split; [tauto |]);
    intros [K | K]; try discriminate; auto.
Qed.

Lemma accepted_line_is_displayed_witness :
  exists record d base',
    parse_for_display (filled 9) eof_line = Some record /\
    byte_count record = 0 /\ address record = 0 /\ record_type record = 1 /\
    displayRecordInfo (filled 9) eof_line 0x30 = Some (d, base') /\
    (1 = 0 \/ 1 = 1 \/ 1 = 2 \/ 1 = 4 \/ 1 = 5) /\
    (1 = 1 \/ 1 = 5 -> d = EndOfFile /\ base' = 0x30).
Proof.
  apply (accepted_line_is_displayed (filled 77) (filled 9) eof_line 0 0 1).
  - reflexivity.
  - vm_compute. reflexivity.
  - vm_compute. reflexivity.
Defined.

(** ** More on checkEOF *)

Lemma to_i8_zero_iff (n : Z) : (to_i8 n =? 0) = (n mod 256 =? 0).
Proof.
  unfold to_i8. cbv zeta. change (2 ^ 8) with 256.
  pose proof (Z.mod_pos_bound n 256 ltac:(lia)) as B.
  destruct (n mod 256 <? 2 ^ 7) eqn:E.
  - reflexivity.
  - apply Z.ltb_ge in E.
    destruct (Z.eqb_spec (n mod 256 - 256) 0);
      destruct (Z.eqb_spec (n mod 256) 0); try reflexivity; lia.
Qed.

Lemma to_i8_one_iff (n : Z) : (to_i8 n =? 1) = (n mod 256 =? 1).
Proof.
  unfold to_i8. cbv zeta. change (2 ^ 8) with 256.
  pose proof (Z.mod_pos_bound n 256 ltac:(lia)) as B.
  destruct (n mod 256 <? 2 ^ 7) eqn:E.
  - reflexivity.
  - apply Z.ltb_ge in E.
    destruct (Z.eqb_spec (n mod 256 - 256) 1);
      destruct (Z.eqb_spec (n mod 256) 1); try reflexivity; lia.
Qed.

(** X9.  The verdict of [checkEOF] depends on the number of End-Of-File
    lines only through its remainder modulo 256: remainder 0 gives 1,
    remainder 1 gives 0 or 2 by comparison of the last line with the last
    End-Of-File line, any other remainder gives 3; so the verdict for a
    file with n End-Of-File lines is the verdict for n + 256 of them. *)
Theorem checkEOF_modulo_256 (last_line0 EOF_line0 : string)
    (lines : list string) (error : Error_t) :
  fst (checkEOF last_line0 EOF_line0 lines error) =
  if count_EOF lines mod 256 =? 0 then 1
  else if count_EOF lines mod 256 =? 1 then
    if strcmp_eq (last lines last_line0)
         (last (filter is_EOF_record lines) EOF_line0)
    then 0 else 2
  else 3.
Proof.
  rewrite checkEOF_verdict, to_i8_zero_iff, to_i8_one_iff. reflexivity.
Qed.

Lemma eof_loop_counters (lines : list string) :
  forall st st',
    found_EOF st = found_EOF st' ->
    line_of_file st = line_of_file st' ->
    err st = err st' ->
    found_EOF (fold_left eof_step lines st)
    = found_EOF (fold_left eof_step lines st') /\
    err (fold_left eof_step lines st) = err (fold_left eof_step lines st').
Proof.
  induction lines as [| line lines IH]; intros st st' F L E.
  - auto.
  - cbn [fold_left]. apply IH; unfold eof_step;
      destruct (is_EOF_record line);
      cbn [found_EOF line_of_file err]; rewrite ?F, ?L, ?E; reflexivity.
Qed.

Lemma last_nonempty {A : Type} (l : list A) (d d' : A) :
  l <> [] -> last l d = last l d'.
Proof.
  destruct l as [| x l]; [contradiction |].
  intros _. rewrite !last_cons. reflexivity.
Qed.

(** X10.  What the two line buffers of [checkEOF] hold before the loop
    never reaches its result: they are compared only after an
    End-Of-File line has been copied into both. *)
Theorem checkEOF_ignores_buffers (l0 e0 l0' e0' : string)
    (lines : list string) (error : Error_t) :
  checkEOF l0 e0 lines error = checkEOF l0' e0' lines error.
Proof.
  rewrite !checkEOF_result. cbv zeta.
  set (st := mkScan l0 e0 0 1 error). set (st' := mkScan l0' e0' 0 1 error).
  destruct (eof_loop_counters lines st st' eq_refl eq_refl eq_refl)
    as [F E].
  destruct (eof_loop_locals lines st 0 eq_refl) as (C & _ & A & B).
  destruct (eof_loop_locals lines st' 0 eq_refl) as (_ & _ & A' & B').
  cbv zeta in C, A, B, A', B'. rewrite Z.add_0_l in C.
  assert (V : eof_verdict (fold_left eof_step lines st)
              = eof_verdict (fold_left eof_step lines st')).
  { unfold eof_verdict. rewrite <- F.
    destruct (found_EOF (fold_left eof_step lines st) =? 0); [reflexivity |].
    destruct (found_EOF (fold_left eof_step lines st) =? 1) eqn:One;
      [| reflexivity].
    apply Z.eqb_eq in One. rewrite C in One.
    assert (N : filter is_EOF_record lines <> []).
    { intros K. unfold count_EOF in One. rewrite K in One.
      vm_compute in One. discriminate. }
    assert (N' : lines <> []).
    { intros K. subst lines. apply N. reflexivity. }
    rewrite A, B, A', B'.
    rewrite (last_nonempty lines _ (last_line st') N').
    rewrite (last_nonempty _ _ (EOF_line st') N).
    reflexivity. }
  rewrite V, E. reflexivity.
Qed.

(** X11.  On a file without End-Of-File line, the empty file included,
    [checkEOF] returns 1 and leaves [error->error_line] as it found it. *)
Theorem checkEOF_missing (last_line0 EOF_line0 : string)
    (lines : list string) (error : Error_t) :
  no_EOF lines ->
  checkEOF last_line0 EOF_line0 lines error
  = (1, mkError 1 (error_line error)).
Proof.
  intros H. rewrite checkEOF_result. cbv zeta.
  destruct (eof_loop_no_EOF lines (mkScan last_line0 EOF_line0 0 1 error) H)
    as (E & F & _).
  unfold eof_verdict. rewrite F, E. reflexivity.
Qed.

Lemma checkEOF_missing_witness :
  checkEOF "" "" [] (mkError 7 9) = (1, mkError 1 9) /\
  checkEOF "" "" [data_line; ela_line] (mkError 7 9) = (1, mkError 1 9).
Proof.
  split.
  - apply checkEOF_missing. intros l [].
  - apply checkEOF_missing. intros l [<- | [<- | []]]; reflexivity.
Defined.

(** ** printIntelHexFile *)

Lemma print_loop_length (g : Z -> IntelHexRecord_t) (fptr : list string) :
  forall n b shown b',
    print_loop g fptr n b = Some (shown, b') ->
    List.length shown = List.length fptr.
Proof.
  induction fptr as [| line fptr IH]; intros n b shown b' H;
    cbn [print_loop] in H.
  - injection H as <- _. reflexivity.
  - destruct (displayRecordInfo (g n) line b) as [[d b1] |]; [| discriminate].
    destruct (print_loop g fptr (n + 1) b1) as [[ds b2] |] eqn:E;
      [| discriminate].
    injection H as <- _. cbn [List.length]. f_equal. exact (IH _ _ _ _ E).
Qed.

(** ** The block behind [record.data] *)

Lemma stores_in_block_converted (line : string) (size : Z) (n : nat) :
  forall i m,
    data_convert line i n = true ->
    parse_data line m i n <> None ->
    stores_in_block line size i n
    = (Z.of_nat n =? 0) || (Z.of_nat i + Z.of_nat n + 3 <=? size).
Proof.
  induction n as [| n IH]; intros i m C P;
    cbn [stores_in_block data_convert parse_data] in *.
  - reflexivity.
  - destruct (at_offset line (9 + Z.of_nat i * 2)) as [p |];
      [| contradiction P; reflexivity].
    destruct (scan_X (Some 2%nat) p) as [[v r] |]; [| discriminate].
    rewrite (IH (S i) (store32 m i v) C P).
    destruct (Z.eqb_spec (Z.of_nat (S n)) 0) as [K | _]; [lia |].
    cbn [orb].
    destruct (Z.eqb_spec (Z.of_nat n) 0) as [K | K]; cbn [orb].
    + rewrite andb_true_r. f_equal. lia.
    + destruct (Z.leb_spec (Z.of_nat i + 4) size);
        destruct (Z.leb_spec (Z.of_nat (S i) + Z.of_nat n + 3) size);
        destruct (Z.leb_spec (Z.of_nat i + Z.of_nat (S n) + 3) size);
        try reflexivity; lia.
Qed.

(** X22.  On a line whose header strings and data pairs all convert, a
    call of [checkRecord] that gets as far as the data loop (result 0 or
    5) with a byte count of at least 1 stores outside the block it
    allocated: the block has byte_count bytes and the last round writes
    four bytes from offset byte_count - 1.  Every other call keeps its
    stores inside the block, or has none. *)
Theorem checkRecord_stores_outside_block (u : IntelHexRecord_t)
    (line : string) (c : Z) :
  all_converted line = true ->
  checkRecord u line = Some c ->
  (checkRecord_in_block u line = false <->
   (c = 0 \/ c = 5) /\ 1 <= declared_byte_count u line).
Proof.
  unfold all_converted, checkRecord, checkRecord_in_block,
    declared_byte_count.
  destruct (starts_with_colon line); cbn [negb];
    [| intros _ H; injection H as <-; split;
       [discriminate | intros [[K | K] _]; discriminate]].
  destruct (scan_header line) as [[[b a] t] |];
    [| intros _ H; injection H as <-; split;
       [discriminate | intros [[K | K] _]; discriminate]].
  destruct (scan_X None b) as [[vb rb] |] eqn:Eb; [| discriminate].
  destruct (scan_X None a) as [[va ra] |] eqn:Ea; [| discriminate].
  intros C.
  destruct (valid_record_type t) eqn:V; cbn [negb];
    [| intros H; injection H as <-; split;
       [discriminate | intros [[K | K] _]; discriminate]].
  cbv zeta.
  assert (F : byte_count (parse_fields u b a t) = vb).
  { unfold parse_fields. cbv zeta.
    rewrite scan_field_type_byte_count, scan_field_address_byte_count.
    unfold scan_field. rewrite Eb. reflexivity. }
  rewrite F.
  pose proof (scan_X_range _ _ _ _ Eb) as Rb.
  destruct (to_u32 (data_byte line) =? vb); cbn [negb];
    [| intros H; injection H as <-; split;
       [discriminate | intros [[K | K] _]; discriminate]].
  destruct (parse_data line (data (parse_fields u b a t)) 0 (Z.to_nat vb))
    as [m |] eqn:P; [| discriminate].
  rewrite (stores_in_block_converted line vb (Z.to_nat vb) 0
             (data (parse_fields u b a t)) C)
    by (rewrite P; discriminate).
  rewrite Z2Nat.id by lia. change (Z.of_nat 0) with 0.
  assert (B : (vb =? 0) || (0 + vb + 3 <=? vb) = (vb =? 0)).
  { destruct (Z.eqb_spec vb 0); [reflexivity |].
    destruct (Z.leb_spec (0 + vb + 3) vb); [lia | reflexivity]. }
  rewrite B.
  destruct (checksum_record line) as [cs |]; [| discriminate].
  intros H.
  assert (K : c = 0 \/ c = 5).
  { destruct (negb (calculated_checksum _ =? cs)); injection H as <-; auto. }
  destruct (Z.eqb_spec vb 0); split; try tauto; try lia; try discriminate.
Qed.

Lemma checkRecord_stores_outside_block_witness :
  checkRecord_in_block (filled 77) data_line = false /\
  checkRecord_in_block (filled 77) eof_line = true.
Proof.
  split.
  - apply (checkRecord_stores_outside_block (filled 77) data_line 0
             eq_refl eq_refl).
    split; [left; reflexivity | vm_compute; discriminate].
  - destruct (checkRecord_in_block (filled 77) eof_line) eqn:K;
      [reflexivity |].
    apply (checkRecord_stores_outside_block (filled 77) eof_line 0
             eq_refl eq_refl) in K.
    destruct K as [_ K]. vm_compute in K. contradiction K. reflexivity.
Defined.

(** X23.  On a line in the fixed layout that holds the data pairs its
    byte count announces, all of them converting, the stores of
    [displayRecordInfo] stay inside the block it asked for exactly when
    the line has no data or the uninitialised [record.byte_count] the
    size was taken from is at least the byte count of the line plus 3. *)
Theorem displayRecordInfo_block_size (u : IntelHexRecord_t) (line : string)
    (b a t : Z) :
  fixed_header line = Some (b, a, t) ->
  data_convert line 0 (Z.to_nat b) = true ->
  9 + 2 * b <= strlen line ->
  displayRecordInfo_in_block u line
  = (b =? 0) || (b + 3 <=? to_u32 (byte_count u)).
Proof.
  intros H C L.
  destruct (fixed_header_scans u u line b a t H) as (_ & D & Rb & _).
  unfold displayed_fields in D. cbv zeta in D.
  unfold displayRecordInfo_in_block. cbv zeta.
  assert (E : byte_count (scan_header_X line (uninitialised u)) = b)
    by (injection D; auto).
  rewrite E.
  destruct (parse_data_defined line (Z.to_nat b)
              (data (uninitialised u)) 0) as [m P].
  { rewrite Z2Nat.id by lia. change (Z.of_nat 0) with 0. lia. }
  rewrite (stores_in_block_converted line _ (Z.to_nat b) 0
             (data (uninitialised u)) C)
    by (rewrite P; discriminate).
  rewrite Z2Nat.id by lia. reflexivity.
Qed.

Lemma displayRecordInfo_block_size_witness :
  displayRecordInfo_in_block (filled 6) data_line = true /\
  displayRecordInfo_in_block (filled 5) data_line = false /\
  displayRecordInfo_in_block (filled 0) eof_line = true.
Proof.
  split; [| split].
  - apply (displayRecordInfo_block_size (filled 6) data_line 3 0x30 0);
      [reflexivity | reflexivity | vm_compute; discriminate].
  - apply (displayRecordInfo_block_size (filled 5) data_line 3 0x30 0);
      [reflexivity | reflexivity | vm_compute; discriminate].
  - apply (displayRecordInfo_block_size (filled 0) eof_line 0 0 1);
      [reflexivity | reflexivity | vm_compute; discriminate].
Defined.

(** ** main *)

Section Main.

(** What the uninitialised objects of a run hold. *)
Variables g1 g3 : Z -> IntelHexRecord_t.
Variables last_line0 EOF_line0 : string.
Variables file_problem EOF_problem : Error_t.

(** X15.  When a line fails [checkRecord] after valid ones, and the calls
    made up to it kept their stores inside their blocks, the program
    reports that line's code with its 1-based number, whatever follows it
    in the file; the End-Of-File check and the display do not run.  (A
    store outside a block would leave what the program does next
    undefined; [all_in_block] keeps the statement to the runs that have
    none.) *)
Theorem main_reports_first_failure (pre : list string) (line : string)
    (rest : list string) (c : Z) :
  all_valid g1 1 pre ->
  checkRecord (g1 (1 + Z.of_nat (List.length pre))) line = Some c ->
  c <> 0 ->
  all_in_block g1 1 (pre ++ [line]) ->
  1 + Z.of_nat (List.length pre) < 2 ^ 32 ->
  main g1 g3 last_line0 EOF_line0 file_problem EOF_problem
    (pre ++ line :: rest)
  = Some (RecordError c (1 + Z.of_nat (List.length pre))).
Proof.
  intros V H Hc _ Hlen. unfold main.
  rewrite (analyzeIntelHexFile_fail_fast g1 pre line rest file_problem c
             V H Hc Hlen).
  pose proof (checkRecord_code_range _ _ _ H) as R.
  replace ((1 <=? c) && (c <=? 5)) with true; [reflexivity |].
  symmetry. apply andb_true_iff. split; apply Z.leb_le; lia.
Qed.

(** X16.  On an empty file the program never reports success: it reports
    a record error when the uninitialised [file_problem.error_code] holds
    a value from 1 to 5, with that value and the equally uninitialised
    line number, and a missing End-Of-File record otherwise. *)
Theorem main_empty_file :
  main g1 g3 last_line0 EOF_line0 file_problem EOF_problem
    [] =
  Some (if (1 <=? to_i32 (error_code file_problem))
           && (to_i32 (error_code file_problem) <=? 5)
        then RecordError (to_i32 (error_code file_problem))
               (error_line file_problem)
        else EOFError 1 (error_line EOF_problem)).
Proof.
  unfold main. cbn [analyzeIntelHexFile analyze_loop].
  destruct ((1 <=? to_i32 (error_code file_problem))
            && (to_i32 (error_code file_problem) <=? 5)); reflexivity.
Qed.

Lemma main_after_valid_records (line : string) (lines : list string) :
  all_valid g1 1 (line :: lines) ->
  main g1 g3 last_line0 EOF_line0 file_problem EOF_problem
    (line :: lines) =
  let '(EOF_error_code, EOF_problem') :=
    checkEOF last_line0 EOF_line0 (line :: lines) EOF_problem in
  if negb (EOF_error_code =? 0) then
    Some (EOFError EOF_error_code (error_line EOF_problem'))
  else
    match printIntelHexFile g3 (line :: lines) base_address_at_start with
    | None => None
    | Some (shown, _) => Some (Records shown)
    end.
Proof.
  intros V. unfold main.
  rewrite (analyzeIntelHexFile_all_valid g1 line lines file_problem V).
  reflexivity.
Qed.

(** X17.  A file of valid records without End-Of-File line, checked
    without a store outside a block, is reported as missing its
    End-Of-File record. *)
Theorem main_missing_EOF (line : string) (lines : list string) :
  all_valid g1 1 (line :: lines) ->
  all_in_block g1 1 (line :: lines) ->
  no_EOF (line :: lines) ->
  main g1 g3 last_line0 EOF_line0 file_problem EOF_problem
    (line :: lines) = Some (EOFError 1 (error_line EOF_problem)).
Proof.
  intros V _ N. rewrite (main_after_valid_records line lines V).
  rewrite checkEOF_result. cbv zeta.
  destruct (eof_loop_no_EOF (line :: lines)
              (mkScan last_line0 EOF_line0 0 1 EOF_problem) N)
    as (E & F & _).
  unfold eof_verdict. rewrite F, E. reflexivity.
Qed.

Lemma last_In {A : Type} (l : list A) (d : A) : l <> [] -> In (last l d) l.
Proof.
  induction l as [| x l IH]; [contradiction |].
  intros _. destruct l as [| y l].
  - left. reflexivity.
  - right. change (last (x :: y :: l) d) with (last (y :: l) d).
    apply IH. discriminate.
Qed.

(** X18.  In a file of valid records, checked without a store outside a
    block, with at most 255 End-Of-File lines, the first of them at line
    k: when only other lines follow it the program reports code 2 at line
    k, when another End-Of-File line follows it reports code 3 at line
    k. *)
Theorem main_EOF_placement (pre : list string) (e : string)
    (post : list string) :
  all_valid g1 1 (pre ++ e :: post) ->
  all_in_block g1 1 (pre ++ e :: post) ->
  no_EOF pre -> is_EOF_record e = true ->
  count_EOF post <= 254 ->
  1 + Z.of_nat (List.length pre) < 2 ^ 32 ->
  (post <> [] -> no_EOF post ->
   main g1 g3 last_line0 EOF_line0 file_problem EOF_problem
    (pre ++ e :: post)
   = Some (EOFError 2 (1 + Z.of_nat (List.length pre)))) /\
  (1 <= count_EOF post ->
   main g1 g3 last_line0 EOF_line0 file_problem EOF_problem
    (pre ++ e :: post)
   = Some (EOFError 3 (1 + Z.of_nat (List.length pre)))).
Proof.
  intros V _ Hpre He H254 Hlen.
  assert (R : main g1 g3 last_line0 EOF_line0 file_problem EOF_problem
    (pre ++ e :: post) =
              let '(c, p) := checkEOF last_line0 EOF_line0 (pre ++ e :: post)
                               EOF_problem in
              if negb (c =? 0) then Some (EOFError c (error_line p))
              else match printIntelHexFile g3 (pre ++ e :: post)
                           base_address_at_start with
                   | None => None
                   | Some (shown, _) => Some (Records shown)
                   end).
  { destruct pre as [| x pre'].
    - exact (main_after_valid_records e post V).
    - exact (main_after_valid_records x (pre' ++ e :: post) V). }
  assert (C : count_EOF (pre ++ e :: post) <= 255).
  { rewrite count_EOF_app, count_EOF_cons, He.
    apply no_EOF_count in Hpre. lia. }
  destruct (checkEOF_below_256 last_line0 EOF_line0 (pre ++ e :: post)
              EOF_problem C) as [_ B].
  destruct (B pre e post eq_refl Hpre He Hlen) as (L & V2 & V3).
  destruct (checkEOF last_line0 EOF_line0 (pre ++ e :: post) EOF_problem)
    as [c p]. cbn [fst snd] in L, V2, V3.
  split.
  - intros Hne Hpost. rewrite R, (V2 Hpost), L.
    assert (D : strcmp_eq (last (pre ++ e :: post) e) e = false).
    { unfold strcmp_eq. apply String.eqb_neq. intros K.
      assert (I : In (last (pre ++ e :: post) e) post).
      { clear - Hne. induction pre as [| x pre IH].
        - cbn [app]. rewrite last_cons. apply last_In. exact Hne.
        - cbn [app]. rewrite last_cons.
          rewrite (last_nonempty _ x e) by (destruct pre; discriminate).
          exact IH. }
      rewrite K in I. apply Hpost in I. congruence. }
    rewrite D. reflexivity.
  - intros H1. rewrite R, (V3 H1), L. reflexivity.
Qed.

(** X19.  The program displays records only for a file that has lines and
    whose last line starts with the End-Of-File record; it then shows one
    entry for every line of the file. *)
Theorem main_shows_only_terminated_files (file : list string)
    (shown : list display) :
  main g1 g3 last_line0 EOF_line0 file_problem EOF_problem
    file = Some (Records shown) ->
  file <> [] /\
  is_EOF_record (last file EmptyString) = true /\
  List.length shown = List.length file.
Proof.
  unfold main.
  destruct (analyzeIntelHexFile g1 file file_problem) as [[[c e] r] |];
    [| discriminate].
  destruct ((1 <=? c) && (c <=? 5)); [discriminate |].
  pose proof (checkEOF_verdict last_line0 EOF_line0 file EOF_problem) as M.
  rewrite to_i8_zero_iff, to_i8_one_iff in M.
  destruct (checkEOF last_line0 EOF_line0 file EOF_problem) as [c' e'].
  cbn [fst] in M.
  destruct (c' =? 0) eqn:Z0; [| discriminate]. cbn [negb].
  apply Z.eqb_eq in Z0. subst c'.
  unfold printIntelHexFile.
  destruct (print_loop g3 file 1 base_address_at_start) as [[s b] |] eqn:P;
    [| discriminate].
  intros H. injection H as <-.
  destruct (count_EOF file mod 256 =? 0) eqn:C0; [discriminate |].
  destruct (count_EOF file mod 256 =? 1) eqn:C1; [| discriminate].
  destruct (strcmp_eq (last file last_line0)
              (last (filter is_EOF_record file) EOF_line0)) eqn:S;
    [| discriminate].
  unfold strcmp_eq in S. apply String.eqb_eq in S.
  assert (N : filter is_EOF_record file <> []).
  { intros K. unfold count_EOF in C0. rewrite K in C0.
    vm_compute in C0. discriminate. }
  assert (N' : file <> []).
  { intros K. subst file. apply N. reflexivity. }
  split; [exact N' |]. split.
  - rewrite (last_nonempty file _ last_line0 N'), S.
    pose proof (last_In (filter is_EOF_record file) EOF_line0 N) as I.
    apply filter_In in I. apply I.
  - exact (print_loop_length g3 file _ _ _ _ P).
Qed.

End Main.

Lemma main_reports_first_failure_witness :
  main (fun _ => filled 7) (fun _ => filled 7) "" "" (mkError 9 9)
    (mkError 9 9)
    ([empty_data_line] ++ (":0300300002337A1E" ++ cr ++ nl)%string
                       :: [eof_line])
  = Some (RecordError 4 2).
Proof.
  apply (main_reports_first_failure (fun _ => filled 7) (fun _ => filled 7)
           "" "" (mkError 9 9) (mkError 9 9)
           [empty_data_line] (":0300300002337A1E" ++ cr ++ nl)%string
           [eof_line] 4).
  - split; [vm_compute; reflexivity | exact I].
  - vm_compute. reflexivity.
  - discriminate.
  - split; [vm_compute; reflexivity |].
    split; [vm_compute; reflexivity | exact I].
  - vm_compute. reflexivity.
Defined.

Lemma main_missing_EOF_witness :
  main (fun _ => filled 7) (fun _ => filled 7) "" "" (mkError 9 9)
    (mkError 8 6) [empty_data_line; empty_data_line]
  = Some (EOFError 1 6).
Proof.
  apply (main_missing_EOF (fun _ => filled 7) (fun _ => filled 7)
           "" "" (mkError 9 9) (mkError 8 6)
           empty_data_line [empty_data_line]).
  - split; [vm_compute; reflexivity |].
    split; [vm_compute; reflexivity | exact I].
  - split; [vm_compute; reflexivity |].
    split; [vm_compute; reflexivity | exact I].
  - intros l [<- | [<- | []]]; reflexivity.
Defined.

Lemma main_EOF_placement_witness :
  main (fun _ => filled 7) (fun _ => filled 7) "" "" (mkError 9 9)
    (mkError 8 6) ([empty_data_line] ++ eof_line :: [empty_data_line])
  = Some (EOFError 2 2).
Proof.
  apply (proj1 (main_EOF_placement (fun _ => filled 7) (fun _ => filled 7)
                  "" "" (mkError 9 9) (mkError 8 6)
                  [empty_data_line] eof_line [empty_data_line]
                  ltac:(repeat split; vm_compute; reflexivity)
                  ltac:(repeat split; vm_compute; reflexivity)
                  ltac:(intros l [<- | []]; reflexivity)
                  eq_refl
                  ltac:(vm_compute; discriminate)
                  ltac:(vm_compute; reflexivity))).
  - discriminate.
  - intros l [<- | []]. reflexivity.
Defined.

Lemma main_shows_only_terminated_files_witness :
  exists shown,
    main (fun _ => filled 7) (fun _ => filled 7) "" "" (mkError 9 9)
      (mkError 8 6) [data_line; eof_line] = Some (Records shown) /\
    List.length shown = 2%nat.
Proof.
  destruct (main (fun _ => filled 7) (fun _ => filled 7) "" "" (mkError 9 9)
              (mkError 8 6) [data_line; eof_line])
    as [[c l | c l | shown] |] eqn:E;
    try (vm_compute in E; discriminate).
  exists shown. split; [reflexivity |].
  apply (main_shows_only_terminated_files _ _ _ _ _ _ _ _ E).
Defined.

(** ** Lines that start with the End-Of-File record *)

(** X12.  A line that starts with ":00000001FF", the lines [checkEOF]
    counts, gets from [checkRecord] code 5 when nothing follows the
    record, code 0 when exactly one character follows, whatever it is,
    and code 4 when more follow. *)
Theorem checkRecord_on_EOF_record (u : IntelHexRecord_t) (rest : string) :
  strlen rest < 2 ^ 31 ->
  checkRecord u (":00000001FF" ++ rest) =
  Some (match rest with
        | EmptyString => 5
        | String _ EmptyString => 0
        | _ => 4
        end).
Proof.
  intros Hlen.
  destruct rest as [| c1 [| c2 r]].
  - vm_compute. reflexivity.
  - vm_compute. reflexivity.
  - set (line := (":00000001FF" ++ String c1 (String c2 r))%string).
    assert (L : strlen line = 13 + strlen r).
    { unfold line. rewrite strlen_app. unfold strlen.
      cbn [String.length]. lia. }
    assert (L' : strlen (String c1 (String c2 r)) = 2 + strlen r).
    { unfold strlen. cbn [String.length]. lia. }
    pose proof (strlen_nonneg r) as R0.
    assert (D : declared_byte_count u line = 0) by reflexivity.
    destruct (checkRecord_cases u line) as (_ & _ & _ & C4 & _).
    apply C4. repeat split; try reflexivity.
    apply count_matches_div; [lia | rewrite D; lia |].
    rewrite D. quotient_facts line. lia.
Qed.

Lemma checkRecord_on_EOF_record_witness :
  checkRecord (filled 3) (":00000001FF" ++ "X") = Some 0 /\
  checkRecord (filled 3) (":00000001FF" ++ cr ++ nl) = Some 4.
Proof.
  split.
  - apply (checkRecord_on_EOF_record (filled 3) "X").
    vm_compute. reflexivity.
  - apply (checkRecord_on_EOF_record (filled 3) (cr ++ nl)).
    vm_compute. reflexivity.
Defined.

(** ** Address records without data *)

(** X13.  For an address record (type 2 or 4) with byte count 0 in the
    fixed layout, the data loop stores nothing and the address shown is
    computed from the first two bytes of the block as [malloc] returned
    it. *)
Theorem displayRecordInfo_without_data (u : IntelHexRecord_t) (line : string)
    (a t base_address : Z) :
  fixed_header line = Some (0, a, t) ->
  3 <= strlen line ->
  t = 2 \/ t = 4 ->
  exists d,
    displayRecordInfo u line base_address = Some (d, base_address) /\
    shown_address d =
    Some (to_u32 (base_address
                  + to_u8 (data u 0%nat) * (if t =? 2 then 0x1000 else 0x1000000)
                  + to_u8 (data u 1%nat) * (if t =? 2 then 0x10 else 0x10000))).
Proof.
  intros F L T.
  destruct (fixed_header_scans u u line 0 a t F) as (_ & Hd & _).
  unfold displayed_fields in Hd. cbv zeta in Hd.
  injection Hd as Hb Ha Ht.
  assert (P : parse_for_display u line =
              Some (set_data
                      (match at_offset line (strlen line - 3) with
                       | Some p =>
                           scan_field (Some 2%nat) p set_checksum
                             (scan_header_X line (uninitialised u))
                       | None => scan_header_X line (uninitialised u)
                       end)
                      (fun i => to_u8 (data u i)))).
  { unfold parse_for_display. cbv zeta.
    destruct (at_offset_defined line (strlen line - 3)) as [p ->]; [lia |].
    assert (B : byte_count (scan_field (Some 2%nat) p set_checksum
                              (scan_header_X line (uninitialised u))) = 0).
    { unfold scan_field. destruct (scan_X (Some 2%nat) p) as [[v r] |];
        exact Hb. }
    rewrite B. cbn [Z.to_nat parse_data]. f_equal. f_equal.
    unfold scan_field. destruct (scan_X (Some 2%nat) p) as [[v r] |];
      cbn [data set_checksum]; rewrite scan_header_X_data; reflexivity. }
  assert (Ty : forall r m, record_type (set_data r m) = record_type r)
    by reflexivity.
  assert (Tr : record_type
                 (match at_offset line (strlen line - 3) with
                  | Some p =>
                      scan_field (Some 2%nat) p set_checksum
                        (scan_header_X line (uninitialised u))
                  | None => scan_header_X line (uninitialised u)
                  end) = t).
  { destruct (at_offset line (strlen line - 3)) as [p |]; [| exact Ht].
    unfold scan_field. destruct (scan_X (Some 2%nat) p) as [[v r] |];
      exact Ht. }
  destruct T as [-> | ->].
  - eexists. split.
    + apply displayRecordInfo_type_2; [exact P | rewrite Ty; exact Tr].
    + reflexivity.
  - eexists. split.
    + apply displayRecordInfo_type_4; [exact P | rewrite Ty; exact Tr].
    + reflexivity.
Qed.

Lemma displayRecordInfo_without_data_witness :
  checkRecord (filled 0) (":00000004FC" ++ nl) = Some 0 /\
  exists d,
    displayRecordInfo (filled 0x1AB) (":00000004FC" ++ nl) 0x30
    = Some (d, 0x30) /\
    shown_address d = Some 0xABAB0030.
Proof.
  split; [vm_compute; reflexivity |].
  destruct (displayRecordInfo_without_data (filled 0x1AB)
              (":00000004FC" ++ nl) 0 4 0x30 eq_refl
              ltac:(vm_compute; discriminate) (or_intror eq_refl))
    as (d & H & S).
  exists d. split; [exact H | exact S].
Defined.

(** ** The uninitialised record *)

Lemma checkRecord_function_of_line_witness :
  all_converted data_line = true /\
  checkRecord (filled 1) data_line = checkRecord (filled 200) data_line.
Proof.
  split; [reflexivity |].
  apply checkRecord_function_of_line. reflexivity.
Defined.
